(** * go-cacheable: the cache-aside coordinator of package [cacheable]

    A shallow embedding of [options.go], [metrics.go] and the file that
    declares [CacheManager] (its [Get], [Delete], [DeleteByTags], the generic
    [Get], and the three [SetDefault...] setters), with the properties the
    specification states about them.

    Go strings are byte strings: they are [string] here, and [[]byte] is
    [list byte], the nil slice being [[]].  A [time.Duration] is a number of
    nanoseconds, a [Z]. *)

From Stdlib Require Import Strings.String Strings.Ascii Strings.Byte.
From Stdlib Require Import List ZArith Bool Lia.
Import ListNotations.

Local Open Scope list_scope.
Local Open Scope string_scope.

(** ** Values that cross the store boundary *)

(** [[]byte(s)] for a Go string [s]. *)
Definition bytes_of_string (s : string) : list byte := list_byte_of_string s.

(** A Go [interface{}] value as the coordinator inspects it: the type switch
    of [CacheManager.Get] tells [[]byte] and [string] apart from everything
    else, the nil interface included. *)
Inductive any : Type :=
| ANil
| ABytes (b : list byte)
| AString (s : string)
| AOther (type_name : string).

(** Go [error] values.  [store.NotFound] is the distinguished kind that
    [errors.Is (err, store.NotFound{})] recognises; every other error is
    opaque apart from its text. *)
Inductive error : Type :=
| store_NotFound (cause : string)
| errors_New (text : string).

Definition errors_Is_NotFound (err : error) : bool :=
  match err with
  | store_NotFound _ => true
  | errors_New _ => false
  end.

(** gocache's [store.Option], as [store.WithExpiration] and
    [store.WithTags] build it. *)
Inductive store_Option : Type :=
| store_WithExpiration (expiration : Z)
| store_WithTags (tags : list string).

(** ** Key composition

    [key = defaultKeyPrefix + ":" + namespace + ":" + key], as both
    [CacheManager.Get] and [CacheManager.Delete] write it; [+] associates to
    the left. *)
Definition composeKey (prefix namespace key : string) : string :=
  (((prefix ++ ":") ++ namespace) ++ ":") ++ key.

(** [strings.Contains (s, ":")]. *)
Fixpoint contains_colon (s : string) : bool :=
  match s with
  | EmptyString => false
  | String c s' => if Ascii.eqb c ":"%char then true else contains_colon s'
  end.

(** ** Metrics ([metrics.go])

    A [prometheus.CounterVec] with the single label ["namespace"]: the
    options it was built from and one count per label value. *)
Record CounterVec : Type := {
  Namespace : string;
  Name : string;
  Help : string;
  counts : list (string * nat)
}.

Definition NewCounterVec (namespace name help : string) : CounterVec :=
  {| Namespace := namespace; Name := name; Help := help; counts := [] |}.

Fixpoint bump (label : string) (cs : list (string * nat)) : list (string * nat) :=
  match cs with
  | [] => [(label, 1%nat)]
  | (l, n) :: cs' =>
      if String.eqb l label then (l, S n) :: cs' else (l, n) :: bump label cs'
  end.

(** [cv.WithLabelValues (label).Inc ()]. *)
Definition Inc (label : string) (cv : CounterVec) : CounterVec :=
  {| Namespace := Namespace cv; Name := Name cv; Help := Help cv;
     counts := bump label (counts cv) |}.

(** ** Package-level variables

    The three [default...] variables and the two counter vectors are the
    package's whole mutable state. *)
Record Process : Type := {
  defaultKeyPrefix : string;
  defaultExpiration : Z;
  defaultMetricsPrefix : string;
  CacheRequestTotal : CounterVec;
  CacheHitTotal : CounterVec
}.

Definition time_Minute : Z := 60 * 1000000000.

(** Package initialisation: the [var] declarations in dependency order.  The
    two counter vectors are built here, once, from the value
    [defaultMetricsPrefix] has at that moment. *)
Definition package_init : Process :=
  let defaultKeyPrefix0 := "cacheable" in
  let defaultExpiration0 := (60 * time_Minute)%Z in
  let defaultMetricsPrefix0 := "cacheable" in
  {| defaultKeyPrefix := defaultKeyPrefix0;
     defaultExpiration := defaultExpiration0;
     defaultMetricsPrefix := defaultMetricsPrefix0;
     CacheRequestTotal :=
       NewCounterVec defaultMetricsPrefix0 "cache_requests_total" "cache_requests_total";
     CacheHitTotal :=
       NewCounterVec defaultMetricsPrefix0 "cache_hit_total" "cache_hit_total" |}.

Definition SetDefaultKeyPrefix (prefix : string) (p : Process) : Process :=
  {| defaultKeyPrefix := prefix;
     defaultExpiration := defaultExpiration p;
     defaultMetricsPrefix := defaultMetricsPrefix p;
     CacheRequestTotal := CacheRequestTotal p;
     CacheHitTotal := CacheHitTotal p |}.

Definition SetDefaultExpiration (expiration : Z) (p : Process) : Process :=
  {| defaultKeyPrefix := defaultKeyPrefix p;
     defaultExpiration := expiration;
     defaultMetricsPrefix := defaultMetricsPrefix p;
     CacheRequestTotal := CacheRequestTotal p;
     CacheHitTotal := CacheHitTotal p |}.

Definition SetDefaultMetricsPrefix (prefix : string) (p : Process) : Process :=
  {| defaultKeyPrefix := defaultKeyPrefix p;
     defaultExpiration := defaultExpiration p;
     defaultMetricsPrefix := prefix;
     CacheRequestTotal := CacheRequestTotal p;
     CacheHitTotal := CacheHitTotal p |}.

Definition inc_CacheRequestTotal (namespace : string) (p : Process) : Process :=
  {| defaultKeyPrefix := defaultKeyPrefix p;
     defaultExpiration := defaultExpiration p;
     defaultMetricsPrefix := defaultMetricsPrefix p;
     CacheRequestTotal := Inc namespace (CacheRequestTotal p);
     CacheHitTotal := CacheHitTotal p |}.

Definition inc_CacheHitTotal (namespace : string) (p : Process) : Process :=
  {| defaultKeyPrefix := defaultKeyPrefix p;
     defaultExpiration := defaultExpiration p;
     defaultMetricsPrefix := defaultMetricsPrefix p;
     CacheRequestTotal := CacheRequestTotal p;
     CacheHitTotal := Inc namespace (CacheHitTotal p) |}.

(** ** Observable steps of one call

    A log of what a call did outside the package, in order.  It is ghost
    state: the code never reads it.  [EvDynamicTags n] is the run of the
    closure held by the [n]-th option of the call; [EvResultTypeError] marks
    the branch that answers ["result type error"]. *)
Inductive event : Type :=
| EvStoreGet (key : string)
| EvStoreSet (key : string) (value : any) (options : list store_Option)
| EvStoreDelete (key : string)
| EvStoreInvalidate (tags : list string)
| EvLoader
| EvDynamicTags (index : nat)
| EvResultTypeError.

Definition is_EvDynamicTags (ev : event) : bool :=
  match ev with EvDynamicTags _ => true | _ => false end.

Definition is_EvStoreSet (ev : event) : bool :=
  match ev with EvStoreSet _ _ _ => true | _ => false end.

Definition is_EvLoader (ev : event) : bool :=
  match ev with EvLoader => true | _ => false end.

Definition is_EvResultTypeError (ev : event) : bool :=
  match ev with EvResultTypeError => true | _ => false end.

Definition event_is_dynamic (n : nat) (ev : event) : bool :=
  match ev with EvDynamicTags m => Nat.eqb m n | _ => false end.

(** [options.go]'s [Options]. *)
Record Options : Type := {
  Expiration : Z;
  Tags : list string
}.

Section Cacheable.

(** Everything outside the package that a call can touch: the contents of
    the store and whatever the caller's closures read and write. *)
Variable E : Type.

Record State : Type := {
  proc : Process;
  env : E
}.

(** Computations of the package: they thread the package variables and the
    outside world, and append to the log. *)
Definition M (A : Type) : Type := State -> (A * State) * list event.

Definition ret {A : Type} (a : A) : M A := fun s => ((a, s), []).

Definition bind {A B : Type} (m : M A) (k : A -> M B) : M B :=
  fun s =>
    let '((a, s1), t1) := m s in
    let '((b, s2), t2) := k a s1 in
    ((b, s2), (t1 ++ t2)%list).

(** A call out of the package: the store's methods and the caller's
    closures.  It acts on the outside world only: a closure that calls back
    into the package (a setter, or a [Get] nested in a loader) is outside
    this model, so nothing here speaks for such closures.  Properties that
    involve a package variable are stated at the point where the code reads
    it. *)
Definition call {A : Type} (ev : event) (f : E -> A * E) : M A :=
  fun s =>
    let '(a, e') := f (env s) in
    ((a, {| proc := proc s; env := e' |}), [ev]).

Definition getProc : M Process := fun s => ((proc s, s), []).

Definition modifyProc (f : Process -> Process) : M unit :=
  fun s => ((tt, {| proc := f (proc s); env := env s |}), []).

Definition mark (ev : event) : M unit := fun s => ((tt, s), [ev]).

(** gocache's [store.StoreInterface], the four methods the package calls. *)
Record StoreInterface : Type := {
  store_Get : string -> E -> (any * option error) * E;
  store_Set : string -> any -> list store_Option -> E -> option error * E;
  store_Delete : string -> E -> option error * E;
  store_Invalidate : list string -> E -> option error * E
}.

(** The caller's closures, which act on the outside world (see [call]). *)
Definition loader : Type := E -> (list byte * option error) * E.
Definition tagsFn : Type := E -> list string * E.

(** [options.go]'s [Option]: the three closures the package builds. *)
Inductive Option : Type :=
| WithTags (tags : list string)
| WithDynamicTags (fn : tagsFn)
| WithExpiration (expiration : Z).

Definition is_dynamic (opt : Option) : bool :=
  match opt with WithDynamicTags _ => true | _ => false end.

(** The body of each closure; [index] is the option's position in the call,
    kept for the log. *)
Definition runOption (index : nat) (opt : Option) (o : Options) : M Options :=
  match opt with
  | WithTags tags =>
      ret {| Expiration := Expiration o; Tags := (Tags o ++ tags)%list |}
  | WithDynamicTags fn =>
      bind (call (EvDynamicTags index) fn) (fun tags =>
      ret {| Expiration := Expiration o; Tags := (Tags o ++ tags)%list |})
  | WithExpiration expiration =>
      ret {| Expiration := expiration; Tags := Tags o |}
  end.

Fixpoint applyOptions_from (index : nat) (opts : list Option) (o : Options) : M Options :=
  match opts with
  | [] => ret o
  | opt :: rest =>
      bind (runOption index opt o) (applyOptions_from (S index) rest)
  end.

Definition applyOptions (opts : list Option) : M Options :=
  applyOptions_from 0 opts {| Expiration := 0; Tags := [] |}.

(** ** The coalescer, seen from one call

    [singleflight.Group.Do] either runs the caller's own function, or, when a
    call for the key is in flight, hands back what that call's function
    returned.  The group is a private field of [CacheManager] and [Get] is
    its only user, so the function in flight is always the closure [Get]
    builds around a loader ([loaderThunk] below): [Follower fn' e'] is the
    closure around [fn'], run by the other call from the world [e'].  What
    other goroutines do to the world meanwhile is not modelled. *)
Inductive flight : Type :=
| Leader
| Follower (fn' : loader) (e' : E).

(** The closure [Get] passes to [Do]. *)
Definition loaderThunk (fn : loader) : M (any * option error) :=
  bind (call EvLoader fn) (fun '(d, err) =>
  match err with
  | Some e => ret (ANil, Some e)
  | None => ret (ABytes d, None)
  end).

(** [i.sg.Do (key, thunk)]; the third result, which [Get] discards, is left
    out. *)
Definition Do (g : flight) (key : string) (thunk : M (any * option error))
  : M (any * option error) :=
  match g with
  | Leader => thunk
  | Follower fn' e' =>
      fun s => ((fst (fst (loaderThunk fn' {| proc := proc s; env := e' |})), s), [])
  end.

Record CacheManager : Type := {
  cache : StoreInterface
}.

Definition NewCacheManager (store : StoreInterface) : CacheManager :=
  {| cache := store |}.

(** The [store.Option]s [Get] builds from the resolved [Options]. *)
Definition setOptions_of (options : Options) (defaultExpiration : Z) : list store_Option :=
  ((if (0 <? Expiration options)%Z
    then [store_WithExpiration (Expiration options)]
    else [store_WithExpiration defaultExpiration])
   ++ (if (0 <? length (Tags options))%nat
       then [store_WithTags (Tags options)]
       else []))%list.

(** The type switch on a hit. *)
Definition Get_hit (data : any) : list byte * option error * bool :=
  match data with
  | ABytes b => (b, None, true)
  | AString s => (bytes_of_string s, None, true)
  | _ => ([], Some (errors_New "unsupported data type"), false)
  end.

(** From [i.sg.Do] to the end of [CacheManager.Get]. *)
Definition Get_miss (i : CacheManager) (g : flight) (key : string) (fn : loader)
    (opts : list Option) : M (list byte * option error * bool) :=
  bind (Do g key (loaderThunk fn)) (fun '(result, fnErr) =>
  match fnErr with
  | Some e => ret ([], Some e, false)
  | None =>
      match result with
      | ABytes data =>
          bind (applyOptions opts) (fun options =>
          bind getProc (fun p =>
          let setOptions := setOptions_of options (defaultExpiration p) in
          bind (call (EvStoreSet key (ABytes data) setOptions)
                     (store_Set (cache i) key (ABytes data) setOptions)) (fun err =>
          match err with
          | Some e => ret ([], Some e, false)
          | None => ret (data, fnErr, false)
          end)))
      | _ =>
          bind (mark EvResultTypeError) (fun _ =>
          ret ([], Some (errors_New "result type error"), false))
      end
  end).

(** [CacheManager.Get]. *)
Definition CacheManager_Get (i : CacheManager) (g : flight) (namespace key : string)
    (fn : loader) (opts : list Option) : M (list byte * option error * bool) :=
  bind (modifyProc (inc_CacheRequestTotal namespace)) (fun _ =>
  bind getProc (fun p =>
  let key := composeKey (defaultKeyPrefix p) namespace key in
  bind (call (EvStoreGet key) (store_Get (cache i) key)) (fun '(data, err) =>
  match err with
  | Some e =>
      if negb (errors_Is_NotFound e)
      then ret ([], Some e, false)
      else Get_miss i g key fn opts
  | None =>
      bind (modifyProc (inc_CacheHitTotal namespace)) (fun _ =>
      ret (Get_hit data))
  end))).

(** [CacheManager.Delete]. *)
Definition CacheManager_Delete (i : CacheManager) (namespace key : string)
  : M (option error) :=
  bind getProc (fun p =>
  let key := composeKey (defaultKeyPrefix p) namespace key in
  call (EvStoreDelete key) (store_Delete (cache i) key)).

(** [CacheManager.DeleteByTags]. *)
Definition CacheManager_DeleteByTags (i : CacheManager) (tags : list string)
  : M (option error) :=
  call (EvStoreInvalidate tags) (store_Invalidate (cache i) tags).

(** ** The typed facade

    [encoding/json] at a type [T]: [zero] is the zero value a named result
    starts with, [json_Unmarshal data v] is [json.Unmarshal (data, &v)]
    followed by a read of [v]. *)
Record Codec (T : Type) : Type := {
  zero : T;
  json_Marshal : T -> list byte * option error;
  json_Unmarshal : list byte -> T -> T * option error
}.

Definition typedLoader (T : Type) : Type := E -> (T * option error) * E.

(** The closure the generic [Get] passes down. *)
Definition marshalLoader {T : Type} (c : Codec T) (fn : typedLoader T) : loader :=
  fun e =>
    let '((v, err), e') := fn e in
    match err with
    | Some x => (([], Some x), e')
    | None => (json_Marshal T c v, e')
    end.

(** The generic [Get]. *)
Definition Get {T : Type} (c : Codec T) (cacheManager : CacheManager) (g : flight)
    (namespace key : string) (fn : typedLoader T) (opts : list Option)
  : M (T * option error * bool) :=
  bind (CacheManager_Get cacheManager g namespace key (marshalLoader c fn) opts)
    (fun '(data, err, cached) =>
  match err with
  | Some e => ret (zero T c, Some e, cached)
  | None =>
      let '(value, err) := json_Unmarshal T c data (zero T c) in
      ret (value, err, cached)
  end).

Definition Delete (cacheManager : CacheManager) (namespace key : string)
  : M (option error) :=
  CacheManager_Delete cacheManager namespace key.

Definition DeleteByTags (cacheManager : CacheManager) (tags : list string)
  : M (option error) :=
  CacheManager_DeleteByTags cacheManager tags.

(** What a run returned, the state it left and its log. *)
Definition result_of {A : Type} (r : (A * State) * list event) : A := fst (fst r).
Definition state_of {A : Type} (r : (A * State) * list event) : State := snd (fst r).
Definition trace_of {A : Type} (r : (A * State) * list event) : list event := snd r.

End Cacheable.

Arguments proc {E} _.
Arguments env {E} _.
Arguments Build_State {E} _ _.
Arguments store_Get {E} _ _ _.
Arguments store_Set {E} _ _ _ _ _.
Arguments store_Delete {E} _ _ _.
Arguments store_Invalidate {E} _ _ _.
Arguments cache {E} _.
Arguments ret {E A} _ _.
Arguments bind {E A B} _ _ _.
Arguments call {E A} _ _ _.
Arguments getProc {E} _.
Arguments modifyProc {E} _ _.
Arguments mark {E} _ _.
Arguments WithTags {E} _.
Arguments WithDynamicTags {E} _.
Arguments WithExpiration {E} _.
Arguments is_dynamic {E} _.
Arguments runOption {E} _ _ _ _.
Arguments applyOptions_from {E} _ _ _ _.
Arguments applyOptions {E} _ _.
Arguments Leader {E}.
Arguments Follower {E} _ _.
Arguments loaderThunk {E} _ _.
Arguments Do {E} _ _ _ _.
Arguments NewCacheManager {E} _.
Arguments Get_miss {E} _ _ _ _ _ _.
Arguments CacheManager_Get {E} _ _ _ _ _ _ _.
Arguments CacheManager_Delete {E} _ _ _ _.
Arguments CacheManager_DeleteByTags {E} _ _ _.
Arguments zero {T} _.
Arguments json_Marshal {T} _ _.
Arguments json_Unmarshal {T} _ _ _.
Arguments marshalLoader {E T} _ _ _.
Arguments Get {E T} _ _ _ _ _ _ _ _.
Arguments Delete {E} _ _ _ _.
Arguments DeleteByTags {E} _ _ _.
Arguments result_of {E A} _.
Arguments state_of {E A} _.
Arguments trace_of {E A} _.

(** The positions of the [WithDynamicTags] options of a call. *)
Fixpoint dynamic_indices_from {E : Type} (index : nat) (opts : list (Option E)) : list nat :=
  match opts with
  | [] => []
  | opt :: rest =>
      if is_dynamic opt
      then index :: dynamic_indices_from (S index) rest
      else dynamic_indices_from (S index) rest
  end.

Definition dynamic_indices {E : Type} (opts : list (Option E)) : list nat :=
  dynamic_indices_from 0 opts.

(** How often the closure of the [n]-th option ran, read off a log. *)
Definition dynamic_runs (n : nat) (t : list event) : nat :=
  length (filter (event_is_dynamic n) t).

(** [result.([]byte)] succeeds, or the coalesced call failed. *)
Definition assertion_passes (r : any * option error) : bool :=
  match r with
  | (ABytes _, None) => true
  | (_, Some _) => true
  | (_, None) => false
  end.

(** A store answers a write with what was written, as bytes or as text. *)
Definition reads_back {E : Type} (st : StoreInterface E) : Prop :=
  forall key d so e e',
    store_Set st key (ABytes d) so e = (None, e') ->
    exists x e'',
      store_Get st key e' = ((x, None), e'') /\
      (x = ABytes d \/ exists s, x = AString s /\ bytes_of_string s = d).

(** ** Stores and codecs to run the code on *)

(** An in-memory store in the manner of the go-cache store the tests use:
    it keeps the value it was given and hands it back; tags and expiry are
    not tracked. *)
Definition MemEnv : Type := list (string * any).

Fixpoint mem_lookup (key : string) (m : MemEnv) : option any :=
  match m with
  | [] => None
  | (k, v) :: m' => if String.eqb k key then Some v else mem_lookup key m'
  end.

Definition memStore : StoreInterface MemEnv :=
  {| store_Get := fun key m =>
       match mem_lookup key m with
       | Some v => ((v, None), m)
       | None => ((ANil, Some (store_NotFound "value not found in store")), m)
       end;
     store_Set := fun key v _ m => (None, (key, v) :: m);
     store_Delete := fun key m =>
       (None, filter (fun kv => negb (String.eqb (fst kv) key)) m);
     store_Invalidate := fun _ m => (None, m) |}.

(** A store with fixed answers: [Get] always gives [got], [Set] always
    gives [set]. *)
Definition stubStore (got : any * option error) (set : option error)
  : StoreInterface unit :=
  {| store_Get := fun _ e => (got, e);
     store_Set := fun _ _ _ e => (set, e);
     store_Delete := fun _ e => (None, e);
     store_Invalidate := fun _ e => (None, e) |}.

Definition not_found : any * option error :=
  (ANil, Some (store_NotFound "value not found in store")).

(** [encoding/json] at the Go type [struct { n int }]: the field is not
    exported, so [json.Marshal] writes ["{}"] whatever the field holds, and
    [json.Unmarshal] of ["{}"] leaves the destination as it was.  That is all
    of the library this stands for: ["{}"] is the only payload [json.Marshal]
    produces at this type, and on any other payload the answer below is a
    stand-in (the library accepts other objects, and words its errors
    differently). *)
Record unexported : Type := { field_n : Z }.

Definition list_byte_eqb (a b : list byte) : bool :=
  String.eqb (string_of_list_byte a) (string_of_list_byte b).

Definition unexportedCodec : Codec unexported :=
  {| zero := {| field_n := 0 |};
     json_Marshal := fun _ => (bytes_of_string "{}", None);
     json_Unmarshal := fun data v =>
       if list_byte_eqb data (bytes_of_string "{}")
       then (v, None)
       else (v, Some (errors_New "json: cannot unmarshal into Go value")) |}.

(** [encoding/json] at the Go type [bool]: [json.Marshal] writes ["true"]
    or ["false"]; [json.Unmarshal] skips JSON white space around the value,
    takes the literals [true] and [false], leaves the destination as it was
    on [null], and on anything else leaves it as it was and answers an error.
    The text of that error is not modelled. *)
Definition is_json_space (b : byte) : bool :=
  match b with
  | x20 | x09 | x0a | x0d => true
  | _ => false
  end.

Fixpoint drop_json_space (l : list byte) : list byte :=
  match l with
  | [] => []
  | b :: l' => if is_json_space b then drop_json_space l' else l
  end.

Definition json_trim (l : list byte) : list byte :=
  rev (drop_json_space (rev (drop_json_space l))).

Definition boolCodec : Codec bool :=
  {| zero := false;
     json_Marshal := fun b =>
       (bytes_of_string (if b then "true" else "false"), None);
     json_Unmarshal := fun data v =>
       if list_byte_eqb (json_trim data) (bytes_of_string "true") then (true, None)
       else if list_byte_eqb (json_trim data) (bytes_of_string "false") then (false, None)
       else if list_byte_eqb (json_trim data) (bytes_of_string "null") then (v, None)
       else (v, Some (errors_New "json: cannot unmarshal into Go value of type bool")) |}.

(** A loader that returns [d] and leaves the world alone. *)
Definition loaderReturning {E : Type} (d : list byte) : loader E :=
  fun e => ((d, None), e).


Definition typedLoaderReturning {E T : Type} (v : T) : typedLoader E T :=
  fun e => ((v, None), e).

Definition start {E : Type} (e : E) : State E :=
  {| proc := package_init; env := e |}.

(** ** The four ways through [CacheManager.Get]

    Each says what the store and the coalescer answered and gives the whole
    run of the call for it: result, final state and log. *)

Section Ways.

Variable E : Type.
Variable i : CacheManager E.
Variable g : flight E.
Variables namespace key : string.
Variable fn : loader E.
Variable opts : list (Option E).
Variable s : State E.

(** The composed key of the call, and the state the lookup leaves. *)
Definition composed : string :=
  composeKey (defaultKeyPrefix (proc s)) namespace key.

Definition looked (e1 : E) : State E :=
  {| proc := inc_CacheRequestTotal namespace (proc s); env := e1 |}.

Definition hit_case : Prop :=
  exists x e1,
    store_Get (cache i) composed (env s) = ((x, None), e1) /\
    CacheManager_Get i g namespace key fn opts s
    = ((Get_hit x,
        {| proc := inc_CacheHitTotal namespace
                     (inc_CacheRequestTotal namespace (proc s));
           env := e1 |}),
       [EvStoreGet composed]).

Definition fault_case : Prop :=
  exists x e0 e1,
    store_Get (cache i) composed (env s) = ((x, Some e0), e1) /\
    errors_Is_NotFound e0 = false /\
    CacheManager_Get i g namespace key fn opts s
    = ((([], Some e0, false), looked e1), [EvStoreGet composed]).

Definition failure_case : Prop :=
  exists x e0 e1 r e s2 t2,
    store_Get (cache i) composed (env s) = ((x, Some e0), e1) /\
    errors_Is_NotFound e0 = true /\
    Do g composed (loaderThunk fn) (looked e1) = (((r, Some e), s2), t2) /\
    CacheManager_Get i g namespace key fn opts s
    = ((([], Some e, false), s2), EvStoreGet composed :: t2).

Definition write_case : Prop :=
  exists x e0 e1 d s2 t2 options s3 err e4,
    store_Get (cache i) composed (env s) = ((x, Some e0), e1) /\
    errors_Is_NotFound e0 = true /\
    Do g composed (loaderThunk fn) (looked e1) = (((ABytes d, None), s2), t2) /\
    applyOptions opts s2
    = ((options, s3), map EvDynamicTags (dynamic_indices opts)) /\
    store_Set (cache i) composed (ABytes d)
      (setOptions_of options (defaultExpiration (proc s))) (env s3) = (err, e4) /\
    CacheManager_Get i g namespace key fn opts s
    = (((match err with
         | Some e => ([], Some e, false)
         | None => (d, None, false)
         end),
        {| proc := inc_CacheRequestTotal namespace (proc s); env := e4 |}),
       EvStoreGet composed
       :: (t2 ++ map EvDynamicTags (dynamic_indices opts)
              ++ [EvStoreSet composed (ABytes d)
                    (setOptions_of options (defaultExpiration (proc s)))])%list).

End Ways.

Arguments composed {E} _ _ _.
Arguments looked {E} _ _ _.
Arguments hit_case {E} _ _ _ _ _ _ _.
Arguments fault_case {E} _ _ _ _ _ _ _.
Arguments failure_case {E} _ _ _ _ _ _ _.
Arguments write_case {E} _ _ _ _ _ _ _.

(** ** Reading logs and counters *)

(** The count a vector holds for one label value. *)
Fixpoint count_of (label : string) (cs : list (string * nat)) : nat :=
  match cs with
  | [] => 0%nat
  | (l, n) :: cs' => if String.eqb l label then n else count_of label cs'
  end.

Definition is_EvStoreGet (ev : event) : bool :=
  match ev with EvStoreGet _ => true | _ => false end.

Definition is_EvStoreDelete (ev : event) : bool :=
  match ev with EvStoreDelete _ => true | _ => false end.

Definition is_EvStoreInvalidate (ev : event) : bool :=
  match ev with EvStoreInvalidate _ => true | _ => false end.

(** How many steps of one kind a log holds. *)
Definition count_events (p : event -> bool) (t : list event) : nat :=
  length (filter p t).

Definition is_expiration {E : Type} (opt : Option E) : bool :=
  match opt with WithExpiration _ => true | _ => false end.

(** A store no longer finds a key it has deleted. *)
Definition forgets {E : Type} (st : StoreInterface E) : Prop :=
  forall key e e',
    store_Delete st key e = (None, e') ->
    exists x err e'',
      store_Get st key e' = ((x, Some err), e'') /\
      errors_Is_NotFound err = true.

(** A codec with fixed answers: [json.Marshal] always gives [marshalled],
    [json.Unmarshal] always gives [unmarshalled]. *)
Definition stubCodec {T : Type} (z : T) (marshalled : list byte * option error)
    (unmarshalled : T * option error) : Codec T :=
  {| zero := z;
     json_Marshal := fun _ => marshalled;
     json_Unmarshal := fun _ _ => unmarshalled |}.

(** The values the package variables can take: what package initialisation
    gives, changed by any sequence of calls of the package's functions, on
    any store and with any closures. *)
Inductive reachable : Process -> Prop :=
| reach_init : reachable package_init
| reach_SetDefaultKeyPrefix (prefix : string) (p : Process) :
    reachable p -> reachable (SetDefaultKeyPrefix prefix p)
| reach_SetDefaultExpiration (expiration : Z) (p : Process) :
    reachable p -> reachable (SetDefaultExpiration expiration p)
| reach_SetDefaultMetricsPrefix (prefix : string) (p : Process) :
    reachable p -> reachable (SetDefaultMetricsPrefix prefix p)
| reach_CacheManager_Get (E : Type) (i : CacheManager E) (g : flight E)
    (namespace key : string) (fn : loader E) (opts : list (Option E))
    (e : E) (p : Process) :
    reachable p ->
    reachable (proc (state_of (CacheManager_Get i g namespace key fn opts
                                 {| proc := p; env := e |})))
| reach_Get (E T : Type) (c : Codec T) (i : CacheManager E) (g : flight E)
    (namespace key : string) (fn : typedLoader E T) (opts : list (Option E))
    (e : E) (p : Process) :
    reachable p ->
    reachable (proc (state_of (Get c i g namespace key fn opts
                                 {| proc := p; env := e |})))
| reach_Delete (E : Type) (i : CacheManager E) (namespace key : string)
    (e : E) (p : Process) :
    reachable p ->
    reachable (proc (state_of (Delete i namespace key {| proc := p; env := e |})))
| reach_DeleteByTags (E : Type) (i : CacheManager E) (tags : list string)
    (e : E) (p : Process) :
    reachable p ->
    reachable (proc (state_of (DeleteByTags i tags {| proc := p; env := e |}))).

(** * Properties *)

(** ** Key composition *)

Lemma append_assoc (a b c : string) : (a ++ b) ++ c = a ++ (b ++ c).
Proof.
  induction a as [|x a IH]; simpl; [reflexivity|].
  now rewrite IH.
Qed.

Lemma append_cancel_l (p a b : string) : p ++ a = p ++ b -> a = b.
Proof.
  induction p as [|x p IH]; simpl; intros H; [exact H|].
  injection H as H. now apply IH.
Qed.

Lemma composeKey_unfold (prefix namespace key : string) :
  composeKey prefix namespace key = prefix ++ ":" ++ namespace ++ ":" ++ key.
Proof.
  unfold composeKey. now rewrite !append_assoc.
Qed.

(** Splitting at the first separator: when neither left part holds a [":"],
    both sides of the separator are determined. *)
Lemma split_at_colon (n1 n2 k1 k2 : string) :
  contains_colon n1 = false ->
  contains_colon n2 = false ->
  n1 ++ ":" ++ k1 = n2 ++ ":" ++ k2 ->
  n1 = n2 /\ k1 = k2.
Proof.
  revert n2.
  induction n1 as [|c n1 IH]; intros [|d n2]; simpl; intros H1 H2 H.
  - injection H as H. now split.
  - injection H as Hc _. subst d. simpl in H2. discriminate.
  - injection H as Hc _. subst c. simpl in H1. discriminate.
  - injection H as Hc H. subst d.
    destruct (Ascii.eqb c ":"%char); [discriminate|].
    destruct (IH n2 H1 H2 H) as [-> ->]. now split.
Qed.

(** C2 as the specification words it fails: two different (namespace, key)
    pairs compose to one string once a namespace holds the separator. *)
Lemma composeKey_collision :
  ("a:b", "c") <> ("a", "b:c") /\
  composeKey "cacheable" "a:b" "c" = composeKey "cacheable" "a" "b:c".
Proof.
  split; [discriminate | reflexivity].
Qed.

(** C2, amended: for a fixed prefix the composed key is determined by the
    (namespace, key) pair, and on the pairs whose namespace holds no [":"]
    composition is injective: equal composed keys come from equal pairs. *)
Theorem composeKey_injective_no_colon (prefix n1 k1 n2 k2 : string) :
  contains_colon n1 = false ->
  contains_colon n2 = false ->
  (composeKey prefix n1 k1 = composeKey prefix n2 k2 <-> (n1, k1) = (n2, k2)).
Proof.
  intros H1 H2. split.
  - intros H.
    rewrite !composeKey_unfold in H.
    apply append_cancel_l in H.
    simpl in H. injection H as H.
    destruct (split_at_colon n1 n2 k1 k2 H1 H2 H) as [-> ->].
    reflexivity.
  - intros H. injection H as -> ->. reflexivity.
Qed.

Lemma composeKey_injective_no_colon_witness :
  contains_colon "users" = false /\
  contains_colon "orders" = false /\
  (composeKey "cacheable" "users" "42" = composeKey "cacheable" "orders" "42"
   <-> ("users", "42") = ("orders", "42")).
Proof.
  split; [reflexivity|]. split; [reflexivity|].
  apply (composeKey_injective_no_colon "cacheable" "users" "42" "orders" "42");
    reflexivity.
Defined.

(** ** One call of [CacheManager.Get], path by path *)

Section Paths.

Variable E : Type.
Variable i : CacheManager E.
Variable g : flight E.
Variables namespace key : string.
Variable fn : loader E.
Variable opts : list (Option E).
Variable s : State E.

Lemma Get_on_fault (x : any) (e0 : error) (e1 : E) :
  store_Get (cache i) (composed namespace key s) (env s) = ((x, Some e0), e1) ->
  errors_Is_NotFound e0 = false ->
  CacheManager_Get i g namespace key fn opts s
  = ((([], Some e0, false), looked namespace s e1), [EvStoreGet (composed namespace key s)]).
Proof.
  intros Hget Hnf. unfold composed, looked in *.
  unfold CacheManager_Get, bind, modifyProc, getProc, call, ret;
    cbn [proc env defaultKeyPrefix inc_CacheRequestTotal].
  rewrite Hget. rewrite Hnf. reflexivity.
Qed.

Lemma Get_on_hit (x : any) (e1 : E) :
  store_Get (cache i) (composed namespace key s) (env s) = ((x, None), e1) ->
  CacheManager_Get i g namespace key fn opts s
  = ((Get_hit x,
      {| proc := inc_CacheHitTotal namespace (inc_CacheRequestTotal namespace (proc s));
         env := e1 |}),
     [EvStoreGet (composed namespace key s)]).
Proof.
  intros Hget. unfold composed in *.
  unfold CacheManager_Get, bind, modifyProc, getProc, call, ret;
    cbn [proc env defaultKeyPrefix inc_CacheRequestTotal].
  rewrite Hget. reflexivity.
Qed.

Lemma Get_on_miss (x : any) (e0 : error) (e1 : E) :
  store_Get (cache i) (composed namespace key s) (env s) = ((x, Some e0), e1) ->
  errors_Is_NotFound e0 = true ->
  CacheManager_Get i g namespace key fn opts s
  = (fst (Get_miss i g (composed namespace key s) fn opts (looked namespace s e1)),
     EvStoreGet (composed namespace key s)
     :: snd (Get_miss i g (composed namespace key s) fn opts (looked namespace s e1))).
Proof.
  intros Hget Hnf. unfold composed, looked in *.
  unfold CacheManager_Get, bind, modifyProc, getProc, call, ret;
    cbn [proc env defaultKeyPrefix inc_CacheRequestTotal].
  rewrite Hget. rewrite Hnf. cbn [negb].
  destruct (Get_miss i g _ fn opts _) as [[r s'] t]. reflexivity.
Qed.

End Paths.

Section MissPath.

Variable E : Type.
Variable i : CacheManager E.
Variable g : flight E.
Variable k : string.
Variable fn : loader E.
Variable opts : list (Option E).

Lemma Get_miss_on_failure (s1 s2 : State E) (r : any) (e : error) (t2 : list event) :
  Do g k (loaderThunk fn) s1 = (((r, Some e), s2), t2) ->
  Get_miss i g k fn opts s1 = ((([], Some e, false), s2), t2).
Proof.
  intros HDo. unfold Get_miss, bind. rewrite HDo. cbn.
  now rewrite app_nil_r.
Qed.

Lemma Get_miss_on_success (s1 s2 s3 : State E) (d : list byte) (t2 t3 : list event)
    (options : Options) (err : option error) (e4 : E) :
  Do g k (loaderThunk fn) s1 = (((ABytes d, None), s2), t2) ->
  applyOptions opts s2 = ((options, s3), t3) ->
  store_Set (cache i) k (ABytes d)
    (setOptions_of options (defaultExpiration (proc s3))) (env s3) = (err, e4) ->
  Get_miss i g k fn opts s1
  = (((match err with
       | Some e => ([], Some e, false)
       | None => (d, None, false)
       end),
      {| proc := proc s3; env := e4 |}),
     (t2 ++ t3 ++ [EvStoreSet k (ABytes d)
                     (setOptions_of options (defaultExpiration (proc s3)))])%list).
Proof.
  intros HDo Hopt Hset.
  unfold Get_miss, bind. rewrite HDo. cbn.
  rewrite Hopt. unfold getProc, call. cbn. rewrite Hset.
  destruct err as [e|]; cbn; rewrite ?app_nil_r; reflexivity.
Qed.

(** What the coalescer hands back: a failure, or bytes. *)
Lemma Do_outcome (s1 : State E) :
  assertion_passes (result_of (Do g k (loaderThunk fn) s1)) = true.
Proof.
  unfold result_of.
  destruct g as [|fn' e']; cbn.
  - unfold loaderThunk, bind, call, ret. cbn.
    destruct (fn (env s1)) as [[d [e|]] e2]; reflexivity.
  - unfold loaderThunk, bind, call, ret. cbn.
    destruct (fn' e') as [[d [e|]] e2]; reflexivity.
Qed.

Lemma Do_success_is_bytes (s1 s2 : State E) (r : any) (t2 : list event) :
  Do g k (loaderThunk fn) s1 = (((r, None), s2), t2) ->
  exists d, r = ABytes d.
Proof.
  intros HDo. pose proof (Do_outcome s1) as H.
  rewrite HDo in H. unfold result_of in H. cbn in H.
  destruct r; try discriminate. now eexists.
Qed.

(** The coalescer runs the loader at most once and nothing else. *)
Lemma Do_trace (s1 : State E) :
  trace_of (Do g k (loaderThunk fn) s1) = match g with Leader => [EvLoader] | Follower _ _ => [] end.
Proof.
  unfold trace_of.
  destruct g as [|fn' e']; cbn; [|reflexivity].
  unfold loaderThunk, bind, call, ret. cbn.
  destruct (fn (env s1)) as [[d [e|]] e2]; reflexivity.
Qed.

Lemma Do_proc (s1 : State E) :
  proc (state_of (Do g k (loaderThunk fn) s1)) = proc s1.
Proof.
  unfold state_of.
  destruct g as [|fn' e']; cbn; [|reflexivity].
  unfold loaderThunk, bind, call, ret. cbn.
  destruct (fn (env s1)) as [[d [e|]] e2]; reflexivity.
Qed.

End MissPath.

(** ** Resolving the options *)

Section ApplyOptions.

Variable E : Type.

Lemma applyOptions_from_trace (opts : list (Option E)) :
  forall (index : nat) (o : Options) (s : State E),
    trace_of (applyOptions_from index opts o s)
    = map EvDynamicTags (dynamic_indices_from index opts).
Proof.
  unfold trace_of.
  induction opts as [|opt rest IH]; intros index o s; [reflexivity|].
  cbn [applyOptions_from dynamic_indices_from].
  destruct opt as [tags|f|d]; cbn [runOption is_dynamic]; unfold bind, call, ret.
  - specialize (IH (S index) {| Expiration := Expiration o; Tags := (Tags o ++ tags)%list |} s).
    destruct (applyOptions_from (S index) rest _ s) as [[o' s'] t']. exact IH.
  - destruct (f (env s)) as [tags e'].
    specialize (IH (S index) {| Expiration := Expiration o; Tags := (Tags o ++ tags)%list |}
                  {| proc := proc s; env := e' |}).
    destruct (applyOptions_from (S index) rest _ _) as [[o' s'] t']. cbn in *.
    now rewrite IH.
  - specialize (IH (S index) {| Expiration := d; Tags := Tags o |} s).
    destruct (applyOptions_from (S index) rest _ s) as [[o' s'] t']. exact IH.
Qed.

Lemma applyOptions_from_proc (opts : list (Option E)) :
  forall (index : nat) (o : Options) (s : State E),
    proc (state_of (applyOptions_from index opts o s)) = proc s.
Proof.
  unfold state_of.
  induction opts as [|opt rest IH]; intros index o s; [reflexivity|].
  cbn [applyOptions_from].
  destruct opt as [tags|f|d]; cbn [runOption]; unfold bind, call, ret.
  - specialize (IH (S index) {| Expiration := Expiration o; Tags := (Tags o ++ tags)%list |} s).
    destruct (applyOptions_from (S index) rest _ s) as [[o' s'] t']. exact IH.
  - destruct (f (env s)) as [tags e'].
    specialize (IH (S index) {| Expiration := Expiration o; Tags := (Tags o ++ tags)%list |}
                  {| proc := proc s; env := e' |}).
    destruct (applyOptions_from (S index) rest _ _) as [[o' s'] t']. exact IH.
  - specialize (IH (S index) {| Expiration := d; Tags := Tags o |} s).
    destruct (applyOptions_from (S index) rest _ s) as [[o' s'] t']. exact IH.
Qed.

Lemma dynamic_indices_from_ge (opts : list (Option E)) :
  forall (index n : nat), In n (dynamic_indices_from index opts) -> index <= n.
Proof.
  induction opts as [|opt rest IH]; intros index n H; [destruct H|].
  cbn in H. destruct (is_dynamic opt).
  - destruct H as [<-|H]; [lia|]. apply IH in H. lia.
  - apply IH in H. lia.
Qed.

Lemma dynamic_indices_from_NoDup (opts : list (Option E)) :
  forall index : nat, NoDup (dynamic_indices_from index opts).
Proof.
  induction opts as [|opt rest IH]; intros index; cbn; [constructor|].
  destruct (is_dynamic opt); [|apply IH].
  constructor; [|apply IH].
  intros H. apply dynamic_indices_from_ge in H. lia.
Qed.

Lemma dynamic_runs_app (n : nat) (t1 t2 : list event) :
  dynamic_runs n (t1 ++ t2) = dynamic_runs n t1 + dynamic_runs n t2.
Proof.
  unfold dynamic_runs. now rewrite filter_app, length_app.
Qed.

Lemma dynamic_runs_map (n : nat) (l : list nat) :
  dynamic_runs n (map EvDynamicTags l) = count_occ Nat.eq_dec l n.
Proof.
  unfold dynamic_runs.
  induction l as [|m l IH]; [reflexivity|].
  cbn. destruct (Nat.eq_dec m n) as [->|Hne].
  - rewrite Nat.eqb_refl. cbn. now rewrite IH.
  - apply Nat.eqb_neq in Hne. rewrite Hne. exact IH.
Qed.

Lemma dynamic_runs_indices (n : nat) (opts : list (Option E)) :
  dynamic_runs n (map EvDynamicTags (dynamic_indices opts)) <= 1.
Proof.
  rewrite dynamic_runs_map.
  apply NoDup_count_occ. apply dynamic_indices_from_NoDup.
Qed.

End ApplyOptions.

(** ** The shape of the miss path *)

Section MissShape.

Variable E : Type.
Variable i : CacheManager E.
Variable g : flight E.
Variable k : string.
Variable fn : loader E.
Variable opts : list (Option E).

Lemma dynamic_runs_Do (n : nat) (s1 : State E) :
  dynamic_runs n (trace_of (Do g k (loaderThunk fn) s1)) = 0.
Proof.
  rewrite Do_trace. destruct g; reflexivity.
Qed.

(** Either the coalesced call failed and nothing more happened, or it gave
    bytes, the options were resolved and one [Set] followed. *)
Lemma Get_miss_shape (s1 : State E) :
  (exists r e s2 t2,
      Do g k (loaderThunk fn) s1 = (((r, Some e), s2), t2) /\
      Get_miss i g k fn opts s1 = ((([], Some e, false), s2), t2))
  \/
  (exists d s2 t2 options s3 err e4,
      Do g k (loaderThunk fn) s1 = (((ABytes d, None), s2), t2) /\
      applyOptions opts s2
      = ((options, s3), map EvDynamicTags (dynamic_indices opts)) /\
      proc s3 = proc s1 /\
      store_Set (cache i) k (ABytes d)
        (setOptions_of options (defaultExpiration (proc s1))) (env s3) = (err, e4) /\
      Get_miss i g k fn opts s1
      = (((match err with
           | Some e => ([], Some e, false)
           | None => (d, None, false)
           end),
          {| proc := proc s1; env := e4 |}),
         (t2 ++ map EvDynamicTags (dynamic_indices opts)
             ++ [EvStoreSet k (ABytes d)
                   (setOptions_of options (defaultExpiration (proc s1)))])%list)).
Proof.
  destruct (Do g k (loaderThunk fn) s1) as [[[r [e|]] s2] t2] eqn:HDo.
  - left. exists r, e, s2, t2. split; [reflexivity|].
    now apply Get_miss_on_failure with (r := r).
  - right.
    destruct (Do_success_is_bytes E g k fn s1 s2 r t2 HDo) as [d ->].
    pose proof (Do_proc E g k fn s1) as Hp2. rewrite HDo in Hp2.
    unfold state_of in Hp2. cbn in Hp2.
    destruct (applyOptions opts s2) as [[options s3] t3] eqn:Hopt.
    pose proof (applyOptions_from_trace E opts 0
                  {| Expiration := 0; Tags := [] |} s2) as Ht3.
    pose proof (applyOptions_from_proc E opts 0
                  {| Expiration := 0; Tags := [] |} s2) as Hp3.
    fold (applyOptions opts) in Ht3, Hp3. rewrite Hopt in Ht3, Hp3.
    unfold trace_of in Ht3. unfold state_of in Hp3. cbn in Ht3, Hp3.
    fold (dynamic_indices opts) in Ht3. subst t3.
    assert (Hp : proc s3 = proc s1) by congruence.
    destruct (store_Set (cache i) k (ABytes d)
                (setOptions_of options (defaultExpiration (proc s1))) (env s3))
      as [err e4] eqn:Hset.
    exists d, s2, t2, options, s3, err, e4.
    repeat split; try reflexivity; try assumption.
    rewrite <- Hp in Hset |- *.
    now apply Get_miss_on_success with (s2 := s2).
Qed.

End MissShape.

(** ** The four ways through [CacheManager.Get] are all there is *)

Lemma Get_cases (E : Type) (i : CacheManager E) (g : flight E)
    (namespace key : string) (fn : loader E) (opts : list (Option E)) (s : State E) :
  hit_case i g namespace key fn opts s \/
  fault_case i g namespace key fn opts s \/
  failure_case i g namespace key fn opts s \/
  write_case i g namespace key fn opts s.
Proof.
  destruct (store_Get (cache i) (composed namespace key s) (env s))
    as [[x [e0|]] e1] eqn:Hget.
  - destruct (errors_Is_NotFound e0) eqn:Hnf.
    + pose proof (Get_on_miss E i g namespace key fn opts s x e0 e1 Hget Hnf) as Hrun.
      destruct (Get_miss_shape E i g (composed namespace key s) fn opts
                  (looked namespace s e1))
        as [(r & e & s2 & t2 & HDo & Hm)
           |(d & s2 & t2 & options & s3 & err & e4 & HDo & Hopt & Hp & Hset & Hm)].
      * right. right. left.
        exists x, e0, e1, r, e, s2, t2.
        repeat split; try assumption.
        rewrite Hrun, Hm. reflexivity.
      * right. right. right.
        exists x, e0, e1, d, s2, t2, options, s3, err, e4.
        repeat split; try assumption.
        rewrite Hrun, Hm. reflexivity.
    + right. left. exists x, e0, e1.
      repeat split; try assumption.
      now apply Get_on_fault with (x := x).
  - left. exists x, e1. split; [exact Hget|].
    now apply Get_on_hit.
Qed.

(** ** What a log can hold *)

Lemma Do_log (E : Type) (g : flight E) (k : string) (fn : loader E)
    (s1 s2 : State E) (r : any * option error) (t2 : list event) :
  Do g k (loaderThunk fn) s1 = ((r, s2), t2) ->
  t2 = [EvLoader] \/ t2 = [].
Proof.
  intros HDo. pose proof (Do_trace E g k fn s1) as H.
  rewrite HDo in H. unfold trace_of in H. cbn in H.
  destruct g; [left | right]; exact H.
Qed.

Lemma existsb_dynamic (p : event -> bool) (l : list nat) :
  (forall n, p (EvDynamicTags n) = false) ->
  existsb p (map EvDynamicTags l) = false.
Proof.
  intros Hp. induction l as [|n l IH]; [reflexivity|].
  cbn. now rewrite Hp, IH.
Qed.

(** ** Write failure *)

(** C1 as the specification words it fails: the loader gave one byte, the
    write failed, and the call answers the write error with a nil payload;
    the computed byte is gone. *)
Lemma write_failure_drops_payload :
  let r := result_of
             (CacheManager_Get
                (NewCacheManager (stubStore not_found (Some (errors_New "write failed"))))
                Leader "users" "42" (loaderReturning [x61]) [] (start tt)) in
  snd (fst r) = Some (errors_New "write failed") /\
  fst (fst r) <> [x61].
Proof.
  split; [reflexivity | discriminate].
Qed.

(** C1, amended: when the lookup misses, the coalesced loader succeeds with
    [d] and the following [Set] fails with [werr], [CacheManager.Get]
    answers [werr] as the call's error, a nil payload, and wasCached false. *)
Theorem Get_write_failure_returns_nil (E : Type) (i : CacheManager E) (g : flight E)
    (namespace key : string) (fn : loader E) (opts : list (Option E)) (s : State E)
    (x : any) (e0 : error) (e1 : E) (d : list byte) (s2 : State E) (t2 : list event)
    (options : Options) (s3 : State E) (t3 : list event) (werr : error) (e4 : E) :
  store_Get (cache i) (composed namespace key s) (env s) = ((x, Some e0), e1) ->
  errors_Is_NotFound e0 = true ->
  Do g (composed namespace key s) (loaderThunk fn) (looked namespace s e1)
  = (((ABytes d, None), s2), t2) ->
  applyOptions opts s2 = ((options, s3), t3) ->
  store_Set (cache i) (composed namespace key s) (ABytes d)
    (setOptions_of options (defaultExpiration (proc s3))) (env s3) = (Some werr, e4) ->
  result_of (CacheManager_Get i g namespace key fn opts s) = ([], Some werr, false).
Proof.
  intros Hget Hnf HDo Hopt Hset.
  rewrite (Get_on_miss E i g namespace key fn opts s x e0 e1 Hget Hnf).
  rewrite (Get_miss_on_success E i g _ fn opts _ s2 s3 d t2 t3 options
             (Some werr) e4 HDo Hopt Hset).
  reflexivity.
Qed.

Lemma Get_write_failure_returns_nil_witness :
  result_of
    (CacheManager_Get
       (NewCacheManager (stubStore not_found (Some (errors_New "write failed"))))
       Leader "users" "42" (loaderReturning [x61]) [] (start tt))
  = ([], Some (errors_New "write failed"), false).
Proof.
  eapply (Get_write_failure_returns_nil unit
            (NewCacheManager (stubStore not_found (Some (errors_New "write failed"))))
            Leader "users" "42" (loaderReturning [x61]) [] (start tt)
            ANil (store_NotFound "value not found in store") tt [x61]);
    reflexivity.
Defined.

(** ** Hit *)

(** C5: on a hit, a payload that is a byte sequence comes back as it is and
    a text payload comes back as its bytes, both with no error and wasCached
    true; any other payload, the nil interface included, is answered with the
    unsupported-type error (its text in the code is "unsupported data
    type"). *)
Theorem Get_hit_normalises (E : Type) (i : CacheManager E) (g : flight E)
    (namespace key : string) (fn : loader E) (opts : list (Option E)) (s : State E)
    (x : any) (e1 : E) :
  store_Get (cache i) (composed namespace key s) (env s) = ((x, None), e1) ->
  result_of (CacheManager_Get i g namespace key fn opts s)
  = match x with
    | ABytes b => (b, None, true)
    | AString str => (bytes_of_string str, None, true)
    | ANil | AOther _ => ([], Some (errors_New "unsupported data type"), false)
    end.
Proof.
  intros Hget.
  rewrite (Get_on_hit E i g namespace key fn opts s x e1 Hget).
  destruct x; reflexivity.
Qed.

Lemma Get_hit_normalises_witness :
  result_of
    (CacheManager_Get (NewCacheManager (stubStore (AString "Alice", None) None))
       Leader "users" "42" (loaderReturning [x61]) [] (start tt))
  = (bytes_of_string "Alice", None, true).
Proof.
  apply (Get_hit_normalises unit
           (NewCacheManager (stubStore (AString "Alice", None) None))
           Leader "users" "42" (loaderReturning [x61]) [] (start tt)
           (AString "Alice") tt).
  reflexivity.
Defined.

(** ** Store fault *)

(** C6: when [Store.Get] fails with an error that is not the not-found kind,
    [CacheManager.Get] answers that error with wasCached false at once: the
    log of the call holds the lookup and nothing else, so the loader was not
    run and nothing was written, and the world is as the lookup left it. *)
Theorem Get_store_fault_propagates (E : Type) (i : CacheManager E) (g : flight E)
    (namespace key : string) (fn : loader E) (opts : list (Option E)) (s : State E)
    (x : any) (e0 : error) (e1 : E) :
  store_Get (cache i) (composed namespace key s) (env s) = ((x, Some e0), e1) ->
  errors_Is_NotFound e0 = false ->
  result_of (CacheManager_Get i g namespace key fn opts s) = ([], Some e0, false) /\
  trace_of (CacheManager_Get i g namespace key fn opts s)
  = [EvStoreGet (composed namespace key s)] /\
  existsb is_EvLoader (trace_of (CacheManager_Get i g namespace key fn opts s)) = false /\
  existsb is_EvStoreSet (trace_of (CacheManager_Get i g namespace key fn opts s)) = false /\
  env (state_of (CacheManager_Get i g namespace key fn opts s)) = e1.
Proof.
  intros Hget Hnf.
  rewrite (Get_on_fault E i g namespace key fn opts s x e0 e1 Hget Hnf).
  repeat split.
Qed.

Lemma Get_store_fault_propagates_witness :
  result_of
    (CacheManager_Get
       (NewCacheManager (stubStore (ANil, Some (errors_New "connection refused")) None))
       Leader "users" "42" (loaderReturning [x61]) [] (start tt))
  = ([], Some (errors_New "connection refused"), false).
Proof.
  apply (Get_store_fault_propagates unit
           (NewCacheManager (stubStore (ANil, Some (errors_New "connection refused")) None))
           Leader "users" "42" (loaderReturning [x61]) [] (start tt)
           ANil (errors_New "connection refused") tt); reflexivity.
Defined.

(** ** Loader failure *)



(** ** The type assertion after the coalescer *)

(** C10: whatever the coalescer hands back without an error is a byte
    slice, so [result.([]byte)] succeeds, and no call of [CacheManager.Get]
    ever takes the branch that answers "result type error". *)
Theorem result_type_error_unreachable (E : Type) (i : CacheManager E) (g : flight E)
    (namespace key : string) (fn : loader E) (opts : list (Option E)) (s : State E) :
  (forall (k : string) (s1 : State E),
      assertion_passes (result_of (Do g k (loaderThunk fn) s1)) = true) /\
  existsb is_EvResultTypeError
    (trace_of (CacheManager_Get i g namespace key fn opts s)) = false.
Proof.
  split.
  - intros k s1. apply Do_outcome.
  - destruct (Get_cases E i g namespace key fn opts s)
      as [(x & e1 & _ & Hrun)
         |[(x & e0 & e1 & _ & _ & Hrun)
          |[(x & e0 & e1 & r & e & s2 & t2 & _ & _ & HDo & Hrun)
           |(x & e0 & e1 & d & s2 & t2 & options & s3 & err & e4
             & _ & _ & HDo & _ & _ & Hrun)]]];
      rewrite Hrun; unfold trace_of; cbn [snd existsb is_EvResultTypeError orb].
    + reflexivity.
    + reflexivity.
    + destruct (Do_log E g _ fn _ s2 _ t2 HDo) as [-> | ->]; reflexivity.
    + rewrite !existsb_app, existsb_dynamic by reflexivity.
      destruct (Do_log E g _ fn _ s2 _ t2 HDo) as [-> | ->]; reflexivity.
Qed.

(** ** Dynamic tags *)

Lemma dynamic_runs_log (n : nat) (t2 : list event) :
  t2 = [EvLoader] \/ t2 = [] -> dynamic_runs n t2 = 0.
Proof.
  intros [-> | ->]; reflexivity.
Qed.

(** C4: in the log of any call of [CacheManager.Get], the closure of each
    [WithDynamicTags] option runs at most once; a closure runs only when the
    lookup missed and the coalesced loader succeeded, and then the closures
    come after the loader and are followed at once by the one [Set] that ends
    the log; on a hit, on a store fault and on a loader failure no closure
    runs. *)
Theorem dynamic_tags_only_before_write (E : Type) (i : CacheManager E) (g : flight E)
    (namespace key : string) (fn : loader E) (opts : list (Option E)) (s : State E) :
  let k := composed namespace key s in
  let t := trace_of (CacheManager_Get i g namespace key fn opts s) in
  (forall n, dynamic_runs n t <= 1) /\
  (forall n, 0 < dynamic_runs n t ->
     exists x e0 e1 d s2 t2 so,
       store_Get (cache i) k (env s) = ((x, Some e0), e1) /\
       errors_Is_NotFound e0 = true /\
       Do g k (loaderThunk fn) (looked namespace s e1) = (((ABytes d, None), s2), t2) /\
       existsb is_EvDynamicTags (EvStoreGet k :: t2) = false /\
       t = (EvStoreGet k :: t2 ++ map EvDynamicTags (dynamic_indices opts)
              ++ [EvStoreSet k (ABytes d) so])%list) /\
  (forall x e1,
     store_Get (cache i) k (env s) = ((x, None), e1) ->
     existsb is_EvDynamicTags t = false) /\
  (forall x e0 e1,
     store_Get (cache i) k (env s) = ((x, Some e0), e1) ->
     errors_Is_NotFound e0 = false ->
     existsb is_EvDynamicTags t = false) /\
  (forall x e0 e1 r e s2 t2,
     store_Get (cache i) k (env s) = ((x, Some e0), e1) ->
     errors_Is_NotFound e0 = true ->
     Do g k (loaderThunk fn) (looked namespace s e1) = (((r, Some e), s2), t2) ->
     existsb is_EvDynamicTags t = false).
Proof.
  intros k t. unfold k, t. clear k t.
  repeat split.
  - intros n.
    destruct (Get_cases E i g namespace key fn opts s)
      as [(x & e1 & _ & Hrun)
         |[(x & e0 & e1 & _ & _ & Hrun)
          |[(x & e0 & e1 & r & e & s2 & t2 & _ & _ & HDo & Hrun)
           |(x & e0 & e1 & d & s2 & t2 & options & s3 & err & e4
             & _ & _ & HDo & _ & _ & Hrun)]]];
      rewrite Hrun; unfold trace_of; cbn [snd].
    + cbn. lia.
    + cbn. lia.
    + change (EvStoreGet (composed namespace key s) :: t2)
        with ([EvStoreGet (composed namespace key s)] ++ t2)%list.
      rewrite dynamic_runs_app, (dynamic_runs_log n t2 (Do_log E g _ fn _ s2 _ t2 HDo)).
      cbn. lia.
    + change (EvStoreGet (composed namespace key s) :: ?l)
        with ([EvStoreGet (composed namespace key s)] ++ l)%list.
      rewrite !dynamic_runs_app, (dynamic_runs_log n t2 (Do_log E g _ fn _ s2 _ t2 HDo)).
      pose proof (dynamic_runs_indices E n opts). cbn. lia.
  - intros n Hn.
    destruct (Get_cases E i g namespace key fn opts s)
      as [(x & e1 & _ & Hrun)
         |[(x & e0 & e1 & _ & _ & Hrun)
          |[(x & e0 & e1 & r & e & s2 & t2 & _ & _ & HDo & Hrun)
           |(x & e0 & e1 & d & s2 & t2 & options & s3 & err & e4
             & Hget & Hnf & HDo & _ & _ & Hrun)]]];
      rewrite Hrun in Hn |- *; unfold trace_of in *; cbn [snd] in *.
    + cbn in Hn. lia.
    + cbn in Hn. lia.
    + change (EvStoreGet (composed namespace key s) :: t2)
        with ([EvStoreGet (composed namespace key s)] ++ t2)%list in Hn.
      rewrite dynamic_runs_app, (dynamic_runs_log n t2 (Do_log E g _ fn _ s2 _ t2 HDo)) in Hn.
      cbn in Hn. lia.
    + exists x, e0, e1, d, s2, t2,
        (setOptions_of options (defaultExpiration (proc s))).
      repeat split; try assumption.
      destruct (Do_log E g _ fn _ s2 _ t2 HDo) as [-> | ->]; reflexivity.
  - intros x e1 Hget.
    rewrite (Get_on_hit E i g namespace key fn opts s x e1 Hget). reflexivity.
  - intros x e0 e1 Hget Hnf.
    rewrite (Get_on_fault E i g namespace key fn opts s x e0 e1 Hget Hnf). reflexivity.
  - intros x e0 e1 r e s2 t2 Hget Hnf HDo.
    rewrite (Get_on_miss E i g namespace key fn opts s x e0 e1 Hget Hnf).
    rewrite (Get_miss_on_failure E i g _ fn opts _ s2 r e t2 HDo).
    unfold trace_of. cbn.
    destruct (Do_log E g _ fn _ s2 _ t2 HDo) as [-> | ->]; reflexivity.
Qed.

Lemma dynamic_tags_only_before_write_witness :
  let i := NewCacheManager memStore in
  let opts := [WithTags ["user"]; WithDynamicTags (fun e => (["org:7"], e));
               WithExpiration 5] in
  let s := start ([] : MemEnv) in
  let k := composed "users" "42" s in
  let t := trace_of (CacheManager_Get i Leader "users" "42" (loaderReturning [x61]) opts s) in
  0 < dynamic_runs 1 t /\
  exists x e0 e1 d s2 t2 so,
    store_Get (cache i) k (env s) = ((x, Some e0), e1) /\
    errors_Is_NotFound e0 = true /\
    Do Leader k (loaderThunk (loaderReturning [x61])) (looked "users" s e1)
    = (((ABytes d, None), s2), t2) /\
    existsb is_EvDynamicTags (EvStoreGet k :: t2) = false /\
    t = (EvStoreGet k :: t2 ++ map EvDynamicTags (dynamic_indices opts)
           ++ [EvStoreSet k (ABytes d) so])%list.
Proof.
  intros i opts s k t.
  assert (Hn : 0 < dynamic_runs 1 t) by (vm_compute; lia).
  split; [exact Hn|].
  exact (proj1 (proj2
           (dynamic_tags_only_before_write MemEnv i Leader "users" "42"
              (loaderReturning [x61]) opts s)) 1 Hn).
Defined.

(** ** Process-wide configuration *)

(** The key prefix is read by each call: the lookup of a call made after
    [SetDefaultKeyPrefix prefix] is for a key composed with [prefix]. *)
Lemma key_prefix_read_at_call_time (E : Type) (i : CacheManager E) (g : flight E)
    (namespace key : string) (fn : loader E) (opts : list (Option E))
    (p : Process) (e : E) (prefix : string) :
  exists tail,
    trace_of (CacheManager_Get i g namespace key fn opts
                {| proc := SetDefaultKeyPrefix prefix p; env := e |})
    = EvStoreGet (composeKey prefix namespace key) :: tail.
Proof.
  destruct (Get_cases E i g namespace key fn opts
              {| proc := SetDefaultKeyPrefix prefix p; env := e |})
    as [(x & e1 & _ & Hrun)
       |[(x & e0 & e1 & _ & _ & Hrun)
        |[(x & e0 & e1 & r & e' & s2 & t2 & _ & _ & _ & Hrun)
         |(x & e0 & e1 & d & s2 & t2 & options & s3 & err & e4
           & _ & _ & _ & _ & _ & Hrun)]]];
    rewrite Hrun; unfold trace_of, composed; cbn; eexists; reflexivity.
Qed.

(** The default expiration is read by each call: a write made without
    options after [SetDefaultExpiration d] carries [d]. *)
Lemma default_expiration_read_at_call_time (E : Type) (i : CacheManager E) (g : flight E)
    (namespace key : string) (fn : loader E) (p : Process) (e : E) (d : Z)
    (k : string) (v : any) (so : list store_Option) :
  In (EvStoreSet k v so)
     (trace_of (CacheManager_Get i g namespace key fn []
                  {| proc := SetDefaultExpiration d p; env := e |})) ->
  so = [store_WithExpiration d].
Proof.
  destruct (Get_cases E i g namespace key fn []
              {| proc := SetDefaultExpiration d p; env := e |})
    as [(x & e1 & _ & Hrun)
       |[(x & e0 & e1 & _ & _ & Hrun)
        |[(x & e0 & e1 & r & e' & s2 & t2 & _ & _ & HDo & Hrun)
         |(x & e0 & e1 & b & s2 & t2 & options & s3 & err & e4
           & _ & _ & HDo & Hopt & _ & Hrun)]]];
    rewrite Hrun; unfold trace_of; cbn [snd]; intros Hin.
  - destruct Hin as [Hin|[]]; discriminate.
  - destruct Hin as [Hin|[]]; discriminate.
  - destruct Hin as [Hin|Hin]; [discriminate|].
    destruct (Do_log E g _ _ _ s2 _ t2 HDo) as [-> | ->];
      [destruct Hin as [Hin|[]]; discriminate | destruct Hin].
  - destruct Hin as [Hin|Hin]; [discriminate|].
    cbn in Hopt. unfold ret in Hopt. injection Hopt as <- _.
    apply in_app_or in Hin. destruct Hin as [Hin|Hin].
    + destruct (Do_log E g _ _ _ s2 _ t2 HDo) as [-> | ->];
        [destruct Hin as [Hin|[]]; discriminate | destruct Hin].
    + cbn in Hin. destruct Hin as [Hin|[]].
      injection Hin as _ _ <-. reflexivity.
Qed.

Lemma Get_metrics_namespace (E : Type) (i : CacheManager E) (g : flight E)
    (namespace key : string) (fn : loader E) (opts : list (Option E)) (s : State E) :
  let p' := proc (state_of (CacheManager_Get i g namespace key fn opts s)) in
  defaultMetricsPrefix p' = defaultMetricsPrefix (proc s) /\
  Namespace (CacheRequestTotal p') = Namespace (CacheRequestTotal (proc s)) /\
  Namespace (CacheHitTotal p') = Namespace (CacheHitTotal (proc s)) /\
  counts (CacheRequestTotal p') = bump namespace (counts (CacheRequestTotal (proc s))).
Proof.
  destruct (Get_cases E i g namespace key fn opts s)
    as [(x & e1 & _ & Hrun)
       |[(x & e0 & e1 & _ & _ & Hrun)
        |[(x & e0 & e1 & r & e' & s2 & t2 & _ & _ & HDo & Hrun)
         |(x & e0 & e1 & b & s2 & t2 & options & s3 & err & e4
           & _ & _ & _ & _ & _ & Hrun)]]];
    rewrite Hrun; unfold state_of; cbn [fst snd proc].
  - repeat split.
  - repeat split.
  - pose proof (Do_proc E g (composed namespace key s) fn (looked namespace s e1)) as Hp.
    rewrite HDo in Hp. unfold state_of in Hp. cbn in Hp. rewrite Hp.
    repeat split.
  - repeat split.
Qed.

(** C8, where the code departs from it: after
    [SetDefaultMetricsPrefix prefix], whatever [prefix] is, a call still
    counts in vectors whose [Namespace] is the initial "cacheable"; the
    variable holds [prefix] and nothing reads it. *)
Theorem SetDefaultMetricsPrefix_not_read (E : Type) (i : CacheManager E) (g : flight E)
    (namespace key : string) (fn : loader E) (opts : list (Option E)) (e : E)
    (prefix : string) :
  let s := {| proc := SetDefaultMetricsPrefix prefix package_init; env := e |} in
  let p' := proc (state_of (CacheManager_Get i g namespace key fn opts s)) in
  defaultMetricsPrefix p' = prefix /\
  Namespace (CacheRequestTotal p') = "cacheable" /\
  Namespace (CacheHitTotal p') = "cacheable" /\
  counts (CacheRequestTotal p') = [(namespace, 1%nat)].
Proof.
  intros s p'.
  destruct (Get_metrics_namespace E i g namespace key fn opts s)
    as (H1 & H2 & H3 & H4).
  fold p' in H1, H2, H3, H4.
  rewrite H1, H2, H3, H4. repeat split.
Qed.

(** ** The typed facade *)

Lemma memStore_reads_back : reads_back memStore.
Proof.
  intros key d so e e' Hset. cbn in Hset. injection Hset as <-.
  exists (ABytes d), ((key, ABytes d) :: e). split; [|now left].
  cbn. now rewrite String.eqb_refl.
Qed.

(** The generic [Get] in terms of the run of [CacheManager.Get] under it. *)
Lemma Get_typed_run (E T : Type) (c : Codec T) (i : CacheManager E) (g : flight E)
    (namespace key : string) (fn : typedLoader E T) (opts : list (Option E))
    (s s' : State E) (data : list byte) (err : option error) (cached : bool)
    (t : list event) :
  CacheManager_Get i g namespace key (marshalLoader c fn) opts s
  = (((data, err, cached), s'), t) ->
  Get c i g namespace key fn opts s
  = (((match err with
       | Some e => (zero c, Some e, cached)
       | None => (fst (json_Unmarshal c data (zero c)),
                  snd (json_Unmarshal c data (zero c)), cached)
       end), s'), t).
Proof.
  intros Hrun. unfold Get, bind. rewrite Hrun.
  destruct err as [e|]; cbn.
  - now rewrite app_nil_r.
  - destruct (json_Unmarshal c data (zero c)) as [value err']; cbn.
    now rewrite app_nil_r.
Qed.

(** C9 as the specification words it fails: at the Go type
    [struct { n int }] both [json.Marshal] and [json.Unmarshal] succeed, and
    the value stored as [{n: 1}] on a miss comes back as [{n: 0}] on the hit
    that follows. *)
Lemma typed_round_trip_loses_unexported_field :
  let cm := NewCacheManager memStore in
  let v := {| field_n := 1 |} in
  let r1 := Get unexportedCodec cm Leader "users" "42"
              (typedLoaderReturning v) [] (start []) in
  let r2 := Get unexportedCodec cm Leader "users" "42"
              (typedLoaderReturning {| field_n := 2 |}) [] (state_of r1) in
  json_Marshal unexportedCodec v = (bytes_of_string "{}", None) /\
  snd (json_Unmarshal unexportedCodec (bytes_of_string "{}") (zero unexportedCodec)) = None /\
  snd (fst (result_of r1)) = None /\ snd (result_of r1) = false /\
  snd (fst (result_of r2)) = None /\ snd (result_of r2) = true /\
  fst (fst (result_of r2)) <> v.
Proof.
  repeat split; discriminate.
Qed.

(** C9, amended: over a store that answers a write with what was written,
    when a generic [Get] on a miss runs a loader that yields [v], serializes
    [v] to [d] and stores [d], that call and the generic [Get] that follows
    for the same namespace and key both return what [json.Unmarshal] makes of
    [d], value and error, the second with wasCached true and with the lookup
    as its only step, so without running its loader; hence they return [v]
    with no error exactly in the case where [d] deserializes back to [v]. *)
Theorem typed_round_trip (E T : Type) (c : Codec T) (i : CacheManager E) (g2 : flight E)
    (namespace key : string) (fn fn2 : typedLoader E T) (opts opts2 : list (Option E))
    (s : State E) (x : any) (e0 : error) (e1 e2 : E) (v : T) (d : list byte)
    (options : Options) (s3 : State E) (t3 : list event) (e4 : E) :
  reads_back (cache i) ->
  store_Get (cache i) (composed namespace key s) (env s) = ((x, Some e0), e1) ->
  errors_Is_NotFound e0 = true ->
  fn e1 = ((v, None), e2) ->
  json_Marshal c v = (d, None) ->
  applyOptions opts {| proc := inc_CacheRequestTotal namespace (proc s); env := e2 |}
  = ((options, s3), t3) ->
  store_Set (cache i) (composed namespace key s) (ABytes d)
    (setOptions_of options (defaultExpiration (proc s3))) (env s3) = (None, e4) ->
  result_of (Get c i Leader namespace key fn opts s)
  = (fst (json_Unmarshal c d (zero c)), snd (json_Unmarshal c d (zero c)), false) /\
  result_of (Get c i g2 namespace key fn2 opts2
               (state_of (Get c i Leader namespace key fn opts s)))
  = (fst (json_Unmarshal c d (zero c)), snd (json_Unmarshal c d (zero c)), true) /\
  trace_of (Get c i g2 namespace key fn2 opts2
              (state_of (Get c i Leader namespace key fn opts s)))
  = [EvStoreGet (composed namespace key s)] /\
  (json_Unmarshal c d (zero c) = (v, None) ->
   result_of (Get c i Leader namespace key fn opts s) = (v, None, false) /\
   result_of (Get c i g2 namespace key fn2 opts2
                (state_of (Get c i Leader namespace key fn opts s)))
   = (v, None, true)).
Proof.
  intros Hstore Hget Hnf Hfn Hmar Hopt Hset.
  (* the first call: miss, load, serialize, store *)
  assert (HDo : Do Leader (composed namespace key s) (loaderThunk (marshalLoader c fn))
                  (looked namespace s e1)
                = (((ABytes d, None),
                    {| proc := inc_CacheRequestTotal namespace (proc s); env := e2 |}),
                   [EvLoader])).
  { cbn [Do]. unfold loaderThunk, bind, call, ret, looked, marshalLoader.
    cbn [env proc]. rewrite Hfn, Hmar. reflexivity. }
  pose proof (Get_on_miss E i Leader namespace key (marshalLoader c fn) opts s
                x e0 e1 Hget Hnf) as Hrun.
  rewrite (Get_miss_on_success E i Leader _ (marshalLoader c fn) opts _ _ s3 d
             [EvLoader] t3 options None e4 HDo Hopt Hset) in Hrun.
  cbn [fst snd] in Hrun.
  pose proof (Get_typed_run E T c i Leader namespace key fn opts s _ _ _ _ _ Hrun)
    as Hrun1.
  cbn iota in Hrun1.
  (* the package variables the second call starts from *)
  pose proof (applyOptions_from_proc E opts 0 {| Expiration := 0; Tags := [] |}
                {| proc := inc_CacheRequestTotal namespace (proc s); env := e2 |})
    as Hp3.
  fold (applyOptions opts) in Hp3. rewrite Hopt in Hp3.
  unfold state_of in Hp3. cbn [fst snd proc] in Hp3.
  set (s' := {| proc := proc s3; env := e4 |}) in *.
  assert (Hk : composed namespace key s' = composed namespace key s).
  { unfold composed, s'. cbn [proc]. now rewrite Hp3. }
  (* the second call: a hit on what the first call wrote *)
  destruct (Hstore _ _ _ _ _ Hset) as (x' & e'' & Hget' & Hx').
  assert (Hget2 : store_Get (cache i) (composed namespace key s') (env s')
                  = ((x', None), e'')) by (rewrite Hk; exact Hget').
  assert (Hhit : Get_hit x' = (d, None, true)).
  { destruct Hx' as [-> | (str & -> & <-)]; reflexivity. }
  pose proof (Get_on_hit E i g2 namespace key (marshalLoader c fn2) opts2 s'
                x' e'' Hget2) as Hrun2.
  rewrite Hhit, Hk in Hrun2.
  pose proof (Get_typed_run E T c i g2 namespace key fn2 opts2 s' _ _ _ _ _ Hrun2)
    as Hrun3.
  cbn iota in Hrun3.
  rewrite Hrun1. unfold state_of at 1 2 3. cbn [fst snd]. fold s'.
  rewrite Hrun3. unfold result_of, trace_of. cbn [fst snd].
  split; [reflexivity|]. split; [reflexivity|]. split; [reflexivity|].
  intros Hunm. rewrite Hunm. split; reflexivity.
Qed.

Lemma typed_round_trip_witness :
  let cm := NewCacheManager memStore in
  let r1 := Get boolCodec cm Leader "flags" "beta" (typedLoaderReturning true)
              [WithTags ["flag"]] (start []) in
  result_of r1 = (true, None, false) /\
  result_of (Get boolCodec cm Leader "flags" "beta" (typedLoaderReturning false) []
               (state_of r1))
  = (true, None, true).
Proof.
  intros cm r1.
  exact (proj2 (proj2 (proj2
           (typed_round_trip MemEnv bool boolCodec cm Leader "flags" "beta"
              (typedLoaderReturning true) (typedLoaderReturning false)
              [WithTags ["flag"]] [] (start [])
              ANil (store_NotFound "value not found in store") [] [] true
              (bytes_of_string "true")
              {| Expiration := 0; Tags := ["flag"] |}
              (looked "flags" (start []) []) []
              [("cacheable:flags:beta", ABytes (bytes_of_string "true"))]
              memStore_reads_back eq_refl eq_refl eq_refl eq_refl eq_refl eq_refl)))
           eq_refl).
Defined.

(** * More of the package *)

(** ** Key composition, continued *)

Lemma length_append (a b : string) :
  String.length (a ++ b) = String.length a + String.length b.
Proof.
  induction a as [|x a IH]; simpl; [reflexivity|]. now rewrite IH.
Qed.

Lemma append_cancel_r (a b c : string) : a ++ c = b ++ c -> a = b.
Proof.
  revert b. induction a as [|x a IH]; intros [|y b] H.
  - reflexivity.
  - exfalso. apply (f_equal String.length) in H.
    simpl in H. rewrite length_append in H. lia.
  - exfalso. apply (f_equal String.length) in H.
    simpl in H. rewrite length_append in H. lia.
  - simpl in H. injection H as -> H. f_equal. now apply IH.
Qed.

(** Within one namespace no two keys collide, whatever the namespace and
    the keys hold: the separator plays no part. *)
Theorem composeKey_injective_in_key (prefix namespace k1 k2 : string) :
  composeKey prefix namespace k1 = composeKey prefix namespace k2 -> k1 = k2.
Proof.
  unfold composeKey. apply append_cancel_l.
Qed.

Lemma composeKey_injective_in_key_witness :
  composeKey "cacheable" "a:b" "x:y" = composeKey "cacheable" "a:b" "x:y" /\
  "x:y" = "x:y".
Proof.
  split; [reflexivity|].
  apply (composeKey_injective_in_key "cacheable" "a:b" "x:y" "x:y"). reflexivity.
Defined.

(** For one namespace and key, different prefixes give different composed
    keys: after the prefix is changed nothing stored before is looked up. *)
Theorem composeKey_injective_in_prefix (p1 p2 namespace key : string) :
  composeKey p1 namespace key = composeKey p2 namespace key -> p1 = p2.
Proof.
  rewrite !composeKey_unfold. apply append_cancel_r.
Qed.

Lemma composeKey_injective_in_prefix_witness :
  composeKey "myapp" "users" "42" = composeKey "myapp" "users" "42" /\
  "myapp" = "myapp".
Proof.
  split; [reflexivity|].
  apply (composeKey_injective_in_prefix "myapp" "myapp" "users" "42"). reflexivity.
Defined.

(** ** Counters *)

Lemma count_of_bump_same (label : string) (cs : list (string * nat)) :
  count_of label (bump label cs) = S (count_of label cs).
Proof.
  induction cs as [|[l n] cs IH]; cbn.
  - now rewrite String.eqb_refl.
  - destruct (String.eqb l label) eqn:Hl; cbn; rewrite Hl; [reflexivity | exact IH].
Qed.

Lemma count_of_bump_other (label other : string) (cs : list (string * nat)) :
  other <> label ->
  count_of other (bump label cs) = count_of other cs.
Proof.
  intros Hne. induction cs as [|[l n] cs IH]; cbn.
  - destruct (String.eqb label other) eqn:Hl; [|reflexivity].
    apply String.eqb_eq in Hl. congruence.
  - destruct (String.eqb l label) eqn:Hl; cbn.
    + apply String.eqb_eq in Hl. subst l.
      destruct (String.eqb label other) eqn:Ho; [|reflexivity].
      apply String.eqb_eq in Ho. congruence.
    + destruct (String.eqb l other); [reflexivity | exact IH].
Qed.

(** ** [CacheManager.Get], continued *)

Ltac get_cases E i g namespace key fn opts s :=
  destruct (Get_cases E i g namespace key fn opts s)
    as [(cx & ce1 & Hget & Hrun)
       |[(cx & ce0 & ce1 & Hget & Hnf & Hrun)
        |[(cx & ce0 & ce1 & cr & cerr & cs2 & ct2 & Hget & Hnf & HDo & Hrun)
         |(cx & ce0 & ce1 & cd & cs2 & ct2 & coptions & cs3 & cerr & ce4
           & Hget & Hnf & HDo & Hopt & Hset & Hrun)]]].

Lemma Do_failure_proc (E : Type) (g : flight E) (k : string) (fn : loader E)
    (s1 s2 : State E) (r : any * option error) (t2 : list event) :
  Do g k (loaderThunk fn) s1 = ((r, s2), t2) -> proc s2 = proc s1.
Proof.
  intros HDo. pose proof (Do_proc E g k fn s1) as Hp.
  rewrite HDo in Hp. exact Hp.
Qed.

(** Whenever [CacheManager.Get] answers an error, the payload is nil and
    wasCached is false, on every path. *)
Theorem Get_error_means_nil (E : Type) (i : CacheManager E) (g : flight E)
    (namespace key : string) (fn : loader E) (opts : list (Option E)) (s : State E)
    (e : error) :
  snd (fst (result_of (CacheManager_Get i g namespace key fn opts s))) = Some e ->
  fst (fst (result_of (CacheManager_Get i g namespace key fn opts s))) = [] /\
  snd (result_of (CacheManager_Get i g namespace key fn opts s)) = false.
Proof.
  get_cases E i g namespace key fn opts s; rewrite Hrun; unfold result_of; cbn [fst snd].
  - destruct cx; cbn; intros H; try discriminate; now split.
  - intros _. now split.
  - intros _. now split.
  - destruct cerr; cbn; intros H; try discriminate; now split.
Qed.

Lemma Get_error_means_nil_witness :
  let r := result_of
             (CacheManager_Get (NewCacheManager (stubStore (AOther "int", None) None))
                Leader "users" "42" (loaderReturning [x61]) [] (start tt)) in
  fst (fst r) = [] /\ snd r = false.
Proof.
  apply (Get_error_means_nil unit
           (NewCacheManager (stubStore (AOther "int", None) None))
           Leader "users" "42" (loaderReturning [x61]) [] (start tt)
           (errors_New "unsupported data type")).
  reflexivity.
Defined.

Lemma count_events_app (p : event -> bool) (t1 t2 : list event) :
  count_events p (t1 ++ t2) = count_events p t1 + count_events p t2.
Proof.
  unfold count_events. now rewrite filter_app, length_app.
Qed.

Lemma count_events_dynamic (p : event -> bool) (l : list nat) :
  (forall n, p (EvDynamicTags n) = false) ->
  count_events p (map EvDynamicTags l) = 0.
Proof.
  intros Hp. unfold count_events.
  induction l as [|n l IH]; [reflexivity|].
  cbn. now rewrite Hp.
Qed.

(** One call of [CacheManager.Get] makes exactly one lookup, runs the
    loader at most once, writes at most once, and never deletes or
    invalidates. *)
Theorem Get_log_budget (E : Type) (i : CacheManager E) (g : flight E)
    (namespace key : string) (fn : loader E) (opts : list (Option E)) (s : State E) :
  let t := trace_of (CacheManager_Get i g namespace key fn opts s) in
  count_events is_EvStoreGet t = 1 /\
  count_events is_EvLoader t <= 1 /\
  count_events is_EvStoreSet t <= 1 /\
  existsb is_EvStoreDelete t = false /\
  existsb is_EvStoreInvalidate t = false.
Proof.
  cbv zeta.
  get_cases E i g namespace key fn opts s; rewrite Hrun; unfold trace_of; cbn [snd].
  - cbn. repeat split; lia.
  - cbn. repeat split; lia.
  - destruct (Do_log E g _ fn _ cs2 _ ct2 HDo) as [-> | ->]; cbn; repeat split; lia.
  - change (EvStoreGet (composed namespace key s) :: ?l)
      with ([EvStoreGet (composed namespace key s)] ++ l)%list.
    rewrite !count_events_app, !existsb_app.
    rewrite !count_events_dynamic, !existsb_dynamic by reflexivity.
    destruct (Do_log E g _ fn _ cs2 _ ct2 HDo) as [-> | ->]; cbn; repeat split; lia.
Qed.

(** A hit is read-only and is counted: when the lookup finds an entry, the
    call's log is that lookup alone, the world is as the lookup left it, and
    the hit counter of the namespace goes up by one, also when the payload is
    of a type the call then rejects. *)
Theorem Get_hit_is_read_only (E : Type) (i : CacheManager E) (g : flight E)
    (namespace key : string) (fn : loader E) (opts : list (Option E)) (s : State E)
    (x : any) (e1 : E) :
  store_Get (cache i) (composed namespace key s) (env s) = ((x, None), e1) ->
  let r := CacheManager_Get i g namespace key fn opts s in
  trace_of r = [EvStoreGet (composed namespace key s)] /\
  env (state_of r) = e1 /\
  count_of namespace (counts (CacheHitTotal (proc (state_of r))))
  = S (count_of namespace (counts (CacheHitTotal (proc s)))).
Proof.
  intros Hget r. unfold r.
  rewrite (Get_on_hit E i g namespace key fn opts s x e1 Hget).
  unfold trace_of, state_of. cbn.
  repeat split. apply count_of_bump_same.
Qed.

Lemma Get_hit_is_read_only_witness :
  let r := CacheManager_Get (NewCacheManager (stubStore (AOther "int", None) None))
             Leader "users" "42" (loaderReturning [x61]) [] (start tt) in
  trace_of r = [EvStoreGet "cacheable:users:42"] /\
  snd (result_of r) = false /\
  count_of "users" (counts (CacheHitTotal (proc (state_of r)))) = 1.
Proof.
  intros r.
  destruct (Get_hit_is_read_only unit
              (NewCacheManager (stubStore (AOther "int", None) None))
              Leader "users" "42" (loaderReturning [x61]) [] (start tt)
              (AOther "int") tt eq_refl) as (H1 & _ & H3).
  split; [exact H1|]. split; [reflexivity | exact H3].
Defined.

(** A store fault counts as one request and nothing else: when the lookup
    answers an error that is not the not-found kind, the lookup is the call's
    only step, so no closure of the caller runs, and the call leaves the package variables as they were but for one
    more request of its namespace; the hit counter, the request counts of the
    other namespaces and the three defaults are unchanged. *)
Theorem Get_fault_counts_one_request (E : Type) (i : CacheManager E) (g : flight E)
    (namespace key : string) (fn : loader E) (opts : list (Option E)) (s : State E)
    (x : any) (e0 : error) (e1 : E) :
  store_Get (cache i) (composed namespace key s) (env s) = ((x, Some e0), e1) ->
  errors_Is_NotFound e0 = false ->
  let p' := proc (state_of (CacheManager_Get i g namespace key fn opts s)) in
  trace_of (CacheManager_Get i g namespace key fn opts s)
  = [EvStoreGet (composed namespace key s)] /\
  count_of namespace (counts (CacheRequestTotal p'))
  = S (count_of namespace (counts (CacheRequestTotal (proc s)))) /\
  (forall other, other <> namespace ->
     count_of other (counts (CacheRequestTotal p'))
     = count_of other (counts (CacheRequestTotal (proc s)))) /\
  CacheHitTotal p' = CacheHitTotal (proc s) /\
  defaultKeyPrefix p' = defaultKeyPrefix (proc s) /\
  defaultExpiration p' = defaultExpiration (proc s) /\
  defaultMetricsPrefix p' = defaultMetricsPrefix (proc s).
Proof.
  intros Hget Hnf. cbv zeta.
  rewrite (Get_on_fault E i g namespace key fn opts s x e0 e1 Hget Hnf).
  unfold state_of, trace_of, looked. cbn.
  repeat split.
  - apply count_of_bump_same.
  - intros other Hne. now apply count_of_bump_other.
Qed.

Lemma Get_fault_counts_one_request_witness :
  let p' := proc (state_of
                    (CacheManager_Get
                       (NewCacheManager
                          (stubStore (ANil, Some (errors_New "connection refused")) None))
                       Leader "users" "42" (loaderReturning [x61]) [] (start tt))) in
  count_of "users" (counts (CacheRequestTotal p')) = 1 /\
  count_of "orders" (counts (CacheRequestTotal p')) = 0 /\
  CacheHitTotal p' = CacheHitTotal package_init.
Proof.
  intros p'.
  destruct (Get_fault_counts_one_request unit
              (NewCacheManager
                 (stubStore (ANil, Some (errors_New "connection refused")) None))
              Leader "users" "42" (loaderReturning [x61]) [] (start tt)
              ANil (errors_New "connection refused") tt eq_refl eq_refl)
    as (_ & H1 & H2 & H3 & _).
  split; [exact H1|]. split; [|exact H3].
  apply (H2 "orders"). discriminate.
Defined.

(** A hit counts as one request and one hit of its namespace and nothing
    else: when the lookup finds an entry, the lookup is the call's only step,
    so no closure of the caller runs, and
    the call leaves the counts of every other namespace, in both vectors, and
    the three defaults unchanged. *)
Theorem Get_hit_counts_one_request_one_hit (E : Type) (i : CacheManager E)
    (g : flight E) (namespace key : string) (fn : loader E) (opts : list (Option E))
    (s : State E) (x : any) (e1 : E) :
  store_Get (cache i) (composed namespace key s) (env s) = ((x, None), e1) ->
  let p' := proc (state_of (CacheManager_Get i g namespace key fn opts s)) in
  trace_of (CacheManager_Get i g namespace key fn opts s)
  = [EvStoreGet (composed namespace key s)] /\
  count_of namespace (counts (CacheRequestTotal p'))
  = S (count_of namespace (counts (CacheRequestTotal (proc s)))) /\
  count_of namespace (counts (CacheHitTotal p'))
  = S (count_of namespace (counts (CacheHitTotal (proc s)))) /\
  (forall other, other <> namespace ->
     count_of other (counts (CacheRequestTotal p'))
     = count_of other (counts (CacheRequestTotal (proc s))) /\
     count_of other (counts (CacheHitTotal p'))
     = count_of other (counts (CacheHitTotal (proc s)))) /\
  defaultKeyPrefix p' = defaultKeyPrefix (proc s) /\
  defaultExpiration p' = defaultExpiration (proc s) /\
  defaultMetricsPrefix p' = defaultMetricsPrefix (proc s).
Proof.
  intros Hget. cbv zeta.
  rewrite (Get_on_hit E i g namespace key fn opts s x e1 Hget).
  unfold state_of, trace_of. cbn.
  repeat split; try apply count_of_bump_same;
    now apply count_of_bump_other.
Qed.

Lemma Get_hit_counts_one_request_one_hit_witness :
  let p' := proc (state_of
                    (CacheManager_Get (NewCacheManager memStore) Leader "users" "42"
                       (loaderReturning [x62]) []
                       (start [("cacheable:users:42", ABytes [x61])]))) in
  count_of "users" (counts (CacheRequestTotal p')) = 1 /\
  count_of "users" (counts (CacheHitTotal p')) = 1 /\
  count_of "orders" (counts (CacheHitTotal p')) = 0.
Proof.
  intros p'.
  destruct (Get_hit_counts_one_request_one_hit MemEnv (NewCacheManager memStore)
              Leader "users" "42" (loaderReturning [x62]) []
              (start [("cacheable:users:42", ABytes [x61])])
              (ABytes [x61]) [("cacheable:users:42", ABytes [x61])] eq_refl)
    as (_ & H1 & H2 & H3 & _).
  split; [exact H1|]. split; [exact H2|].
  apply (H3 "orders"). discriminate.
Defined.

Lemma Get_proc_cases (E : Type) (i : CacheManager E) (g : flight E)
    (namespace key : string) (fn : loader E) (opts : list (Option E)) (s : State E) :
  proc (state_of (CacheManager_Get i g namespace key fn opts s))
  = inc_CacheRequestTotal namespace (proc s)
  \/ proc (state_of (CacheManager_Get i g namespace key fn opts s))
     = inc_CacheHitTotal namespace (inc_CacheRequestTotal namespace (proc s)).
Proof.
  get_cases E i g namespace key fn opts s; rewrite Hrun; unfold state_of;
    cbn [fst snd proc].
  - now right.
  - now left.
  - left. apply (Do_failure_proc E g _ fn _ cs2 _ ct2 HDo).
  - now left.
Qed.

Lemma Get_typed_state (E T : Type) (c : Codec T) (i : CacheManager E) (g : flight E)
    (namespace key : string) (fn : typedLoader E T) (opts : list (Option E))
    (s : State E) :
  state_of (Get c i g namespace key fn opts s)
  = state_of (CacheManager_Get i g namespace key (marshalLoader c fn) opts s) /\
  trace_of (Get c i g namespace key fn opts s)
  = trace_of (CacheManager_Get i g namespace key (marshalLoader c fn) opts s) /\
  snd (result_of (Get c i g namespace key fn opts s))
  = snd (result_of (CacheManager_Get i g namespace key (marshalLoader c fn) opts s)).
Proof.
  destruct (CacheManager_Get i g namespace key (marshalLoader c fn) opts s)
    as [[[[data err] cached] s'] t] eqn:Hrun.
  rewrite (Get_typed_run E T c i g namespace key fn opts s s' data err cached t Hrun).
  destruct err; repeat split.
Qed.

(** The package's metrics stay consistent whatever is called: after any
    sequence of [Get], [Delete], [DeleteByTags] and the three setters, on any
    stores and with any loaders, both counter vectors still carry the names
    they were built with, and for every namespace the hits counted do not
    exceed the requests counted. *)
Theorem hits_never_exceed_requests (p : Process) :
  reachable p ->
  Namespace (CacheRequestTotal p) = "cacheable" /\
  Name (CacheRequestTotal p) = "cache_requests_total" /\
  Namespace (CacheHitTotal p) = "cacheable" /\
  Name (CacheHitTotal p) = "cache_hit_total" /\
  forall label,
    count_of label (counts (CacheHitTotal p))
    <= count_of label (counts (CacheRequestTotal p)).
Proof.
  assert (Hstep : forall (q : Process) (namespace : string),
             (Namespace (CacheRequestTotal q) = "cacheable" /\
              Name (CacheRequestTotal q) = "cache_requests_total" /\
              Namespace (CacheHitTotal q) = "cacheable" /\
              Name (CacheHitTotal q) = "cache_hit_total" /\
              forall label,
                count_of label (counts (CacheHitTotal q))
                <= count_of label (counts (CacheRequestTotal q))) ->
             forall q',
               q' = inc_CacheRequestTotal namespace q \/
               q' = inc_CacheHitTotal namespace (inc_CacheRequestTotal namespace q) ->
               Namespace (CacheRequestTotal q') = "cacheable" /\
               Name (CacheRequestTotal q') = "cache_requests_total" /\
               Namespace (CacheHitTotal q') = "cacheable" /\
               Name (CacheHitTotal q') = "cache_hit_total" /\
               forall label,
                 count_of label (counts (CacheHitTotal q'))
                 <= count_of label (counts (CacheRequestTotal q'))).
  { intros q namespace (H1 & H2 & H3 & H4 & H5) q' [-> | ->]; cbn;
      repeat split; try assumption; intros label; specialize (H5 label);
      destruct (string_dec label namespace) as [-> | Hne];
      rewrite ?count_of_bump_same, ?count_of_bump_other by assumption; lia. }
  induction 1 as [| prefix p _ IH | expiration p _ IH | prefix p _ IH
                  | E i g namespace key fn opts e p _ IH
                  | E T c i g namespace key fn opts e p _ IH
                  | E i namespace key e p _ IH
                  | E i tags e p _ IH].
  - cbn. repeat split. intros label. lia.
  - exact IH.
  - exact IH.
  - exact IH.
  - apply (Hstep p namespace IH).
    apply (Get_proc_cases E i g namespace key fn opts {| proc := p; env := e |}).
  - apply (Hstep p namespace IH).
    destruct (Get_typed_state E T c i g namespace key fn opts {| proc := p; env := e |})
      as (-> & _).
    apply (Get_proc_cases E i g namespace key (marshalLoader c fn) opts
             {| proc := p; env := e |}).
  - unfold Delete, CacheManager_Delete, bind, getProc, call, state_of. cbn.
    destruct (store_Delete (cache i) _ e) as [err e']. exact IH.
  - unfold DeleteByTags, CacheManager_DeleteByTags, call, state_of. cbn.
    destruct (store_Invalidate (cache i) tags e) as [err e']. exact IH.
Qed.

Lemma hits_never_exceed_requests_witness :
  let p := proc (state_of (CacheManager_Get (NewCacheManager memStore) Leader
                             "users" "42" (loaderReturning [x61]) []
                             {| proc := SetDefaultMetricsPrefix "myapp_cache" package_init;
                                env := [] |})) in
  Namespace (CacheHitTotal p) = "cacheable" /\
  count_of "users" (counts (CacheHitTotal p))
  <= count_of "users" (counts (CacheRequestTotal p)).
Proof.
  intros p.
  destruct (hits_never_exceed_requests p
              (reach_CacheManager_Get MemEnv (NewCacheManager memStore) Leader
                 "users" "42" (loaderReturning [x61]) [] []
                 (SetDefaultMetricsPrefix "myapp_cache" package_init)
                 (reach_SetDefaultMetricsPrefix "myapp_cache" package_init reach_init)))
    as (_ & _ & H3 & _ & H5).
  split; [exact H3 | apply H5].
Defined.

(** ** The write of a miss *)

(** A miss that computes and stores: when the lookup answers not-found, the
    coalesced loader gives [d] and the [Set] succeeds, the call returns [d]
    with no error and wasCached false, and its log is the lookup, the
    loader's step, the dynamic-tag closures and the one [Set] of [d] under the
    composed key; [d] may be empty. *)
Theorem Get_miss_stores_and_returns (E : Type) (i : CacheManager E) (g : flight E)
    (namespace key : string) (fn : loader E) (opts : list (Option E)) (s : State E)
    (x : any) (e0 : error) (e1 : E) (d : list byte) (s2 : State E) (t2 : list event)
    (options : Options) (s3 : State E) (t3 : list event) (e4 : E) :
  store_Get (cache i) (composed namespace key s) (env s) = ((x, Some e0), e1) ->
  errors_Is_NotFound e0 = true ->
  Do g (composed namespace key s) (loaderThunk fn) (looked namespace s e1)
  = (((ABytes d, None), s2), t2) ->
  applyOptions opts s2 = ((options, s3), t3) ->
  store_Set (cache i) (composed namespace key s) (ABytes d)
    (setOptions_of options (defaultExpiration (proc s3))) (env s3) = (None, e4) ->
  result_of (CacheManager_Get i g namespace key fn opts s) = (d, None, false) /\
  env (state_of (CacheManager_Get i g namespace key fn opts s)) = e4 /\
  trace_of (CacheManager_Get i g namespace key fn opts s)
  = (EvStoreGet (composed namespace key s)
     :: t2 ++ t3
        ++ [EvStoreSet (composed namespace key s) (ABytes d)
              (setOptions_of options (defaultExpiration (proc s3)))])%list.
Proof.
  intros Hget Hnf HDo Hopt Hset.
  rewrite (Get_on_miss E i g namespace key fn opts s x e0 e1 Hget Hnf).
  rewrite (Get_miss_on_success E i g _ fn opts _ s2 s3 d t2 t3 options
             None e4 HDo Hopt Hset).
  repeat split.
Qed.

Lemma Get_miss_stores_and_returns_witness :
  let r := CacheManager_Get (NewCacheManager memStore) Leader "users" "empty"
             (loaderReturning []) [WithTags ["user"]] (start []) in
  result_of r = ([], None, false) /\
  env (state_of r) = [("cacheable:users:empty", ABytes [])].
Proof.
  intros r.
  destruct (Get_miss_stores_and_returns MemEnv (NewCacheManager memStore) Leader
              "users" "empty" (loaderReturning []) [WithTags ["user"]] (start [])
              ANil (store_NotFound "value not found in store") [] []
              (looked "users" (start []) []) [EvLoader]
              {| Expiration := 0; Tags := ["user"] |}
              (looked "users" (start []) []) []
              [("cacheable:users:empty", ABytes [])]
              eq_refl eq_refl eq_refl eq_refl eq_refl) as (H1 & H2 & _).
  split; [exact H1 | exact H2].
Defined.

(** The log of a call that reaches the write, with the options of the
    [Set] as the code builds them: from the options resolved after the
    coalescer returned, and from the default expiration as it is then. *)
Lemma Get_write_run (E : Type) (i : CacheManager E) (g : flight E)
    (namespace key : string) (fn : loader E) (opts : list (Option E)) (s : State E)
    (x : any) (e0 : error) (e1 : E) (d : list byte) (s2 : State E)
    (t2 : list event) :
  store_Get (cache i) (composed namespace key s) (env s) = ((x, Some e0), e1) ->
  errors_Is_NotFound e0 = true ->
  Do g (composed namespace key s) (loaderThunk fn) (looked namespace s e1)
  = (((ABytes d, None), s2), t2) ->
  trace_of (CacheManager_Get i g namespace key fn opts s)
  = (EvStoreGet (composed namespace key s)
     :: t2 ++ trace_of (applyOptions opts s2)
        ++ [EvStoreSet (composed namespace key s) (ABytes d)
              (setOptions_of (result_of (applyOptions opts s2))
                 (defaultExpiration (proc (state_of (applyOptions opts s2)))))])%list.
Proof.
  intros Hget Hnf HDo.
  destruct (applyOptions opts s2) as [[options s3] t3] eqn:Hopt.
  unfold result_of at 1, state_of at 1, trace_of at 2. cbn [fst snd].
  destruct (store_Set (cache i) (composed namespace key s) (ABytes d)
              (setOptions_of options (defaultExpiration (proc s3))) (env s3))
    as [err e4] eqn:Hset.
  rewrite (Get_on_miss E i g namespace key fn opts s x e0 e1 Hget Hnf).
  rewrite (Get_miss_on_success E i g _ fn opts _ s2 s3 d t2 t3 options
             err e4 HDo Hopt Hset).
  reflexivity.
Qed.

Lemma setOptions_of_spelled (options : Options) (default : Z) :
  setOptions_of options default
  = store_WithExpiration
      (if (0 <? Expiration options)%Z then Expiration options else default)
    :: match Tags options with
       | [] => []
       | _ :: _ => [store_WithTags (Tags options)]
       end.
Proof.
  unfold setOptions_of.
  destruct (0 <? Expiration options)%Z; destruct (Tags options); reflexivity.
Qed.

(** What a write hands to the store: when the lookup misses and the
    coalescer hands back [d], the call ends with one [Set] of [d] under the
    composed key whose options are exactly one expiration, the resolved one
    when it is positive and otherwise the default expiration as it is once
    the option closures have run, followed by one tags option holding the
    resolved tags when there is at least one, and by nothing when there is
    none. *)
Theorem Get_set_is_well_formed (E : Type) (i : CacheManager E) (g : flight E)
    (namespace key : string) (fn : loader E) (opts : list (Option E)) (s : State E)
    (x : any) (e0 : error) (e1 : E) (d : list byte) (s2 : State E)
    (t2 : list event) :
  store_Get (cache i) (composed namespace key s) (env s) = ((x, Some e0), e1) ->
  errors_Is_NotFound e0 = true ->
  Do g (composed namespace key s) (loaderThunk fn) (looked namespace s e1)
  = (((ABytes d, None), s2), t2) ->
  let options := result_of (applyOptions opts s2) in
  let default := defaultExpiration (proc (state_of (applyOptions opts s2))) in
  let expiration :=
    if (0 <? Expiration options)%Z then Expiration options else default in
  trace_of (CacheManager_Get i g namespace key fn opts s)
  = (EvStoreGet (composed namespace key s)
     :: t2 ++ trace_of (applyOptions opts s2)
        ++ [EvStoreSet (composed namespace key s) (ABytes d)
              (store_WithExpiration expiration
               :: match Tags options with
                  | [] => []
                  | _ :: _ => [store_WithTags (Tags options)]
                  end)])%list /\
  ((0 < expiration)%Z \/ expiration = default).
Proof.
  intros Hget Hnf HDo. cbv zeta.
  rewrite (Get_write_run E i g namespace key fn opts s x e0 e1 d s2 t2 Hget Hnf HDo).
  rewrite setOptions_of_spelled. split; [reflexivity|].
  destruct (0 <? Expiration (result_of (applyOptions opts s2)))%Z eqn:Hexp.
  - left. now apply Z.ltb_lt.
  - now right.
Qed.

Lemma Get_set_is_well_formed_witness :
  trace_of (CacheManager_Get (NewCacheManager memStore) Leader "users" "42"
              (loaderReturning [x61])
              [WithExpiration (-5); WithTags ["user"]] (start []))
  = [EvStoreGet "cacheable:users:42"; EvLoader;
     EvStoreSet "cacheable:users:42" (ABytes [x61])
       [store_WithExpiration 3600000000000; store_WithTags ["user"]]].
Proof.
  exact (proj1
           (Get_set_is_well_formed MemEnv (NewCacheManager memStore) Leader
              "users" "42" (loaderReturning [x61])
              [WithExpiration (-5); WithTags ["user"]] (start [])
              ANil (store_NotFound "value not found in store") [] [x61]
              (looked "users" (start []) []) [EvLoader]
              eq_refl eq_refl eq_refl)).
Defined.

(** ** [applyOptions], continued *)

Lemma bind_run (E A B : Type) (m : M E A) (k : A -> M E B) (s : State E) :
  bind m k s
  = ((result_of (k (result_of (m s)) (state_of (m s))),
      state_of (k (result_of (m s)) (state_of (m s)))),
     (trace_of (m s) ++ trace_of (k (result_of (m s)) (state_of (m s))))%list).
Proof.
  unfold bind, result_of, state_of, trace_of.
  destruct (m s) as [[a s1] t1]. cbn.
  destruct (k a s1) as [[b s2] t2]. reflexivity.
Qed.

Lemma runOption_expiration (E : Type) (index : nat) (opt : Option E) (o : Options)
    (s : State E) :
  Expiration (result_of (runOption index opt o s))
  = match opt with WithExpiration d => d | _ => Expiration o end.
Proof.
  destruct opt as [tags|f|d]; cbn; try reflexivity.
  unfold bind, call, ret, result_of. destruct (f (env s)) as [tags e']. reflexivity.
Qed.


Lemma applyOptions_from_keeps_expiration (E : Type) (opts : list (Option E)) :
  forall (index : nat) (o : Options) (s : State E),
    forallb (fun opt => negb (is_expiration opt)) opts = true ->
    Expiration (result_of (applyOptions_from index opts o s)) = Expiration o.
Proof.
  induction opts as [|opt rest IH]; intros index o s Hno; [reflexivity|].
  cbn in Hno. apply andb_prop in Hno. destruct Hno as [Hopt Hrest].
  cbn [applyOptions_from]. rewrite bind_run. unfold result_of at 1. cbn [fst].
  fold (result_of (applyOptions_from (S index) rest
                     (result_of (runOption index opt o s))
                     (state_of (runOption index opt o s)))).
  rewrite IH by exact Hrest.
  rewrite runOption_expiration. destruct opt; try reflexivity. discriminate.
Qed.

Lemma applyOptions_last_expiration (E : Type) (opts1 opts2 : list (Option E)) (d : Z)
    (s : State E) :
  forallb (fun opt => negb (is_expiration opt)) opts2 = true ->
  Expiration (result_of (applyOptions (opts1 ++ WithExpiration d :: opts2) s)) = d.
Proof.
  intros Hno. unfold applyOptions.
  generalize 0 at 1. generalize {| Expiration := 0; Tags := [] |}. revert s.
  induction opts1 as [|opt rest IH]; intros s o index.
  - cbn [app applyOptions_from]. rewrite bind_run. unfold result_of at 1. cbn [fst].
    fold (result_of (applyOptions_from (S index) opts2
                       (result_of (runOption index (WithExpiration d) o s))
                       (state_of (runOption index (WithExpiration d) o s)))).
    rewrite applyOptions_from_keeps_expiration by exact Hno.
    now rewrite runOption_expiration.
  - cbn [app applyOptions_from]. rewrite bind_run. unfold result_of at 1. cbn [fst].
    apply IH.
Qed.

(** Among the options of a call the last [WithExpiration] wins: whatever
    comes before it, and whatever options other than [WithExpiration] come
    after it, the resolved expiration is the one it carries. *)
Theorem last_WithExpiration_wins (E : Type) (opts1 opts2 : list (Option E)) (d : Z)
    (s : State E) :
  forallb (fun opt => negb (is_expiration opt)) opts2 = true ->
  Expiration (result_of (applyOptions (opts1 ++ WithExpiration d :: opts2) s)) = d.
Proof.
  intros Hno. now apply applyOptions_last_expiration.
Qed.

Lemma last_WithExpiration_wins_witness :
  Expiration
    (result_of
       (applyOptions
          ([WithExpiration 7; WithTags ["a"]]
             ++ WithExpiration 5 :: [WithDynamicTags (fun e : unit => (["b"], e))])
          (start tt)))
  = 5%Z.
Proof.
  apply (last_WithExpiration_wins unit [WithExpiration 7; WithTags ["a"]]
           [WithDynamicTags (fun e : unit => (["b"], e))] 5 (start tt)).
  reflexivity.
Defined.




Lemma applyOptions_from_static (E : Type) (opts : list (Option E)) :
  forall (index : nat) (o : Options) (s s' : State E),
    forallb (fun opt => negb (is_dynamic opt)) opts = true ->
    state_of (applyOptions_from index opts o s) = s /\
    trace_of (applyOptions_from index opts o s) = [] /\
    result_of (applyOptions_from index opts o s')
    = result_of (applyOptions_from index opts o s).
Proof.
  induction opts as [|opt rest IH]; intros index o s s' Hno; [repeat split|].
  cbn in Hno. apply andb_prop in Hno. destruct Hno as [Hopt Hrest].
  cbn [applyOptions_from]. rewrite !bind_run.
  unfold result_of at 1 3, state_of at 1, trace_of at 1. cbn [fst snd].
  destruct opt as [tags|f|d]; try discriminate; cbn [runOption];
    unfold ret; cbn [fst snd result_of state_of trace_of app];
    apply (IH (S index) _ s s' Hrest).
Qed.

(** Options without a dynamic-tag closure are resolved without touching
    anything: the state is left as it was, nothing is logged, and the
    resolved options do not depend on the state. *)
Theorem static_options_are_pure (E : Type) (opts : list (Option E)) (s s' : State E) :
  forallb (fun opt => negb (is_dynamic opt)) opts = true ->
  state_of (applyOptions opts s) = s /\
  trace_of (applyOptions opts s) = [] /\
  result_of (applyOptions opts s') = result_of (applyOptions opts s).
Proof.
  intros Hno. unfold applyOptions. now apply applyOptions_from_static.
Qed.

Lemma static_options_are_pure_witness :
  state_of (applyOptions [WithTags ["a"]; WithExpiration 5] (start tt)) = start tt.
Proof.
  apply (static_options_are_pure unit [WithTags ["a"]; WithExpiration 5]
           (start tt) (start tt)).
  reflexivity.
Defined.

(** ** Expiration of a write *)

(** The expiration a write carries is decided by the last [WithExpiration]
    of the call: when the lookup misses and the coalescer hands back [d], the
    [Set] that ends the call carries that option's value when it is positive,
    and, when it is zero or negative, the default expiration as it is once
    the option closures have run. *)
Theorem Get_writes_with_last_expiration (E : Type) (i : CacheManager E) (g : flight E)
    (namespace key : string) (fn : loader E) (opts1 opts2 : list (Option E)) (d : Z)
    (s : State E) (x : any) (e0 : error) (e1 : E) (data : list byte) (s2 : State E)
    (t2 : list event) :
  forallb (fun opt => negb (is_expiration opt)) opts2 = true ->
  store_Get (cache i) (composed namespace key s) (env s) = ((x, Some e0), e1) ->
  errors_Is_NotFound e0 = true ->
  Do g (composed namespace key s) (loaderThunk fn) (looked namespace s e1)
  = (((ABytes data, None), s2), t2) ->
  let opts := (opts1 ++ WithExpiration d :: opts2)%list in
  exists rest,
    trace_of (CacheManager_Get i g namespace key fn opts s)
    = (EvStoreGet (composed namespace key s)
       :: t2 ++ trace_of (applyOptions opts s2)
          ++ [EvStoreSet (composed namespace key s) (ABytes data)
                (store_WithExpiration
                   (if (0 <? d)%Z then d
                    else defaultExpiration (proc (state_of (applyOptions opts s2))))
                 :: rest)])%list.
Proof.
  intros Hno Hget Hnf HDo. cbv zeta.
  rewrite (Get_write_run E i g namespace key fn _ s x e0 e1 data s2 t2 Hget Hnf HDo).
  rewrite setOptions_of_spelled.
  rewrite (applyOptions_last_expiration E opts1 opts2 d s2 Hno).
  eexists. reflexivity.
Qed.

Lemma Get_writes_with_last_expiration_witness :
  exists rest,
    trace_of (CacheManager_Get (NewCacheManager memStore) Leader "users" "42"
                (loaderReturning [x61])
                ([WithExpiration 9] ++ WithExpiration (-5) :: [WithTags ["user"]])
                (start []))
    = [EvStoreGet "cacheable:users:42"; EvLoader;
       EvStoreSet "cacheable:users:42" (ABytes [x61])
         (store_WithExpiration 3600000000000 :: rest)].
Proof.
  exact (Get_writes_with_last_expiration MemEnv (NewCacheManager memStore) Leader
           "users" "42" (loaderReturning [x61])
           [WithExpiration 9] [WithTags ["user"]] (-5) (start [])
           ANil (store_NotFound "value not found in store") [] [x61]
           (looked "users" (start []) []) [EvLoader]
           eq_refl eq_refl eq_refl eq_refl).
Defined.

(** Without any [WithExpiration] among its options, a call that reaches the
    write carries the default expiration as it is once the option closures
    have run, so a call made after [SetDefaultExpiration] writes with the new
    value. *)
Theorem Get_writes_with_default_expiration (E : Type) (i : CacheManager E)
    (g : flight E) (namespace key : string) (fn : loader E) (opts : list (Option E))
    (s : State E) (x : any) (e0 : error) (e1 : E) (data : list byte) (s2 : State E)
    (t2 : list event) :
  forallb (fun opt => negb (is_expiration opt)) opts = true ->
  store_Get (cache i) (composed namespace key s) (env s) = ((x, Some e0), e1) ->
  errors_Is_NotFound e0 = true ->
  Do g (composed namespace key s) (loaderThunk fn) (looked namespace s e1)
  = (((ABytes data, None), s2), t2) ->
  exists rest,
    trace_of (CacheManager_Get i g namespace key fn opts s)
    = (EvStoreGet (composed namespace key s)
       :: t2 ++ trace_of (applyOptions opts s2)
          ++ [EvStoreSet (composed namespace key s) (ABytes data)
                (store_WithExpiration
                   (defaultExpiration (proc (state_of (applyOptions opts s2))))
                 :: rest)])%list.
Proof.
  intros Hno Hget Hnf HDo.
  rewrite (Get_write_run E i g namespace key fn _ s x e0 e1 data s2 t2 Hget Hnf HDo).
  rewrite setOptions_of_spelled.
  assert (Hexp : Expiration (result_of (applyOptions opts s2)) = 0%Z).
  { unfold applyOptions.
    now rewrite (applyOptions_from_keeps_expiration E opts 0 _ s2 Hno). }
  rewrite Hexp. cbn [Z.ltb Z.compare]. eexists. reflexivity.
Qed.

Lemma Get_writes_with_default_expiration_witness :
  exists rest,
    trace_of (CacheManager_Get (NewCacheManager memStore) Leader "users" "42"
                (loaderReturning [x61]) [WithTags ["user"]]
                {| proc := SetDefaultExpiration (5 * time_Minute) package_init;
                   env := [] |})
    = [EvStoreGet "cacheable:users:42"; EvLoader;
       EvStoreSet "cacheable:users:42" (ABytes [x61])
         (store_WithExpiration 300000000000 :: rest)].
Proof.
  exact (Get_writes_with_default_expiration MemEnv (NewCacheManager memStore) Leader
           "users" "42" (loaderReturning [x61]) [WithTags ["user"]]
           {| proc := SetDefaultExpiration (5 * time_Minute) package_init; env := [] |}
           ANil (store_NotFound "value not found in store") [] [x61]
           (looked "users"
              {| proc := SetDefaultExpiration (5 * time_Minute) package_init;
                 env := [] |} [])
           [EvLoader] eq_refl eq_refl eq_refl eq_refl).
Defined.

(** ** [Delete] and [DeleteByTags] *)

Lemma Delete_run (E : Type) (i : CacheManager E) (namespace key : string)
    (s : State E) :
  Delete i namespace key s
  = ((fst (store_Delete (cache i) (composed namespace key s) (env s)),
      {| proc := proc s;
         env := snd (store_Delete (cache i) (composed namespace key s) (env s)) |}),
     [EvStoreDelete (composed namespace key s)]).
Proof.
  unfold Delete, CacheManager_Delete, bind, getProc, call, composed. cbn.
  destruct (store_Delete (cache i) _ (env s)) as [err e']. reflexivity.
Qed.

(** [Delete] aims at the entry [Get] reads and writes: under one key
    prefix, the key [Delete] hands to the store for a namespace and key is
    the key a [Get] for them looks up, and [Delete] makes that one store call
    and leaves the package variables alone. *)
Theorem Delete_targets_the_key_of_Get (E : Type) (i : CacheManager E) (g : flight E)
    (namespace key : string) (fn : loader E) (opts : list (Option E))
    (s s' : State E) :
  defaultKeyPrefix (proc s') = defaultKeyPrefix (proc s) ->
  exists k tail,
    trace_of (CacheManager_Get i g namespace key fn opts s) = EvStoreGet k :: tail /\
    trace_of (Delete i namespace key s') = [EvStoreDelete k] /\
    proc (state_of (Delete i namespace key s')) = proc s'.
Proof.
  intros Hp. rewrite Delete_run. unfold trace_of, state_of. cbn [fst snd proc].
  assert (Hk : composed namespace key s' = composed namespace key s)
    by (unfold composed; now rewrite Hp).
  rewrite Hk. exists (composed namespace key s).
  get_cases E i g namespace key fn opts s; rewrite Hrun; cbn [snd];
    eexists; repeat split.
Qed.

Lemma Delete_targets_the_key_of_Get_witness :
  exists k tail,
    trace_of (CacheManager_Get (NewCacheManager memStore) Leader "users" "42"
                (loaderReturning [x61]) [] (start []))
    = EvStoreGet k :: tail /\
    trace_of (Delete (NewCacheManager memStore) "users" "42"
                (start [("cacheable:users:42", ABytes [x61])]))
    = [EvStoreDelete k] /\
    proc (state_of (Delete (NewCacheManager memStore) "users" "42"
                      (start [("cacheable:users:42", ABytes [x61])])))
    = package_init.
Proof.
  apply (Delete_targets_the_key_of_Get MemEnv (NewCacheManager memStore) Leader
           "users" "42" (loaderReturning [x61]) [] (start [])
           (start [("cacheable:users:42", ABytes [x61])])).
  reflexivity.
Defined.

(** Keys are scoped by the key prefix and tags are not: once the prefix is
    changed to a different one, [Delete] for the same namespace and key asks
    the store for a different key, while [DeleteByTags] asks for the same
    tags with the same outcome. *)
Theorem prefix_scopes_keys_not_tags (E : Type) (i : CacheManager E)
    (namespace key : string) (tags : list string) (p : Process) (e : E)
    (prefix : string) :
  prefix <> defaultKeyPrefix p ->
  trace_of (Delete i namespace key {| proc := SetDefaultKeyPrefix prefix p; env := e |})
  <> trace_of (Delete i namespace key {| proc := p; env := e |}) /\
  trace_of (DeleteByTags i tags {| proc := SetDefaultKeyPrefix prefix p; env := e |})
  = [EvStoreInvalidate tags] /\
  trace_of (DeleteByTags i tags {| proc := SetDefaultKeyPrefix prefix p; env := e |})
  = trace_of (DeleteByTags i tags {| proc := p; env := e |}) /\
  result_of (DeleteByTags i tags {| proc := SetDefaultKeyPrefix prefix p; env := e |})
  = result_of (DeleteByTags i tags {| proc := p; env := e |}) /\
  env (state_of (DeleteByTags i tags {| proc := SetDefaultKeyPrefix prefix p; env := e |}))
  = env (state_of (DeleteByTags i tags {| proc := p; env := e |})).
Proof.
  intros Hne. split.
  - rewrite !Delete_run. unfold trace_of, composed. cbn [snd proc defaultKeyPrefix SetDefaultKeyPrefix].
    intros H. injection H as H.
    rewrite !composeKey_unfold in H. apply append_cancel_r in H. contradiction.
  - unfold DeleteByTags, CacheManager_DeleteByTags, call, trace_of, result_of, state_of.
    cbn. destruct (store_Invalidate (cache i) tags e) as [err e']. repeat split.
Qed.

Lemma prefix_scopes_keys_not_tags_witness :
  trace_of (Delete (NewCacheManager memStore) "users" "42"
              {| proc := SetDefaultKeyPrefix "myapp" package_init; env := [] |})
  <> trace_of (Delete (NewCacheManager memStore) "users" "42"
                 {| proc := package_init; env := [] |}).
Proof.
  apply (prefix_scopes_keys_not_tags MemEnv (NewCacheManager memStore)
           "users" "42" ["user"] package_init [] "myapp").
  discriminate.
Defined.

(** ** Calls in sequence *)

Lemma memStore_forgets : forgets memStore.
Proof.
  intros key e e' Hdel. cbn in Hdel. injection Hdel as <-.
  exists ANil, (store_NotFound "value not found in store"),
    (filter (fun kv => negb (String.eqb (fst kv) key)) e).
  split; [|reflexivity]. cbn.
  assert (Hnone : mem_lookup key (filter (fun kv => negb (String.eqb (fst kv) key)) e)
                  = None).
  { induction e as [|[k v] e IH]; [reflexivity|].
    cbn. destruct (String.eqb k key) eqn:Hk; cbn; [exact IH|].
    rewrite Hk. exact IH. }
  now rewrite Hnone.
Qed.

(** A stored value is served next time: over a store that answers a write
    with what was written, when a [CacheManager.Get] returns [d] with no
    error and wasCached false, the [CacheManager.Get] for the same namespace
    and key that follows returns [d] with wasCached true, whatever its loader
    and options, and its log is the lookup alone. *)
Theorem Get_then_Get_hits (E : Type) (i : CacheManager E) (g g2 : flight E)
    (namespace key : string) (fn fn2 : loader E) (opts opts2 : list (Option E))
    (s : State E) (d : list byte) :
  reads_back (cache i) ->
  result_of (CacheManager_Get i g namespace key fn opts s) = (d, None, false) ->
  result_of (CacheManager_Get i g2 namespace key fn2 opts2
               (state_of (CacheManager_Get i g namespace key fn opts s)))
  = (d, None, true) /\
  trace_of (CacheManager_Get i g2 namespace key fn2 opts2
              (state_of (CacheManager_Get i g namespace key fn opts s)))
  = [EvStoreGet (composed namespace key s)].
Proof.
  intros Hstore.
  get_cases E i g namespace key fn opts s; rewrite Hrun;
    unfold result_of at 1, state_of; cbn [fst snd]; intros Hres.
  - destruct cx; cbn in Hres; discriminate.
  - discriminate.
  - discriminate.
  - destruct cerr as [werr|]; [discriminate|]. injection Hres as ->.
    destruct (Hstore _ _ _ _ _ Hset) as (x' & e'' & Hget' & Hx').
    set (s' := {| proc := inc_CacheRequestTotal namespace (proc s); env := ce4 |}).
    assert (Hget2 : store_Get (cache i) (composed namespace key s') (env s')
                    = ((x', None), e'')) by exact Hget'.
    rewrite (Get_on_hit E i g2 namespace key fn2 opts2 s' x' e'' Hget2).
    unfold result_of, trace_of. cbn [fst snd].
    split; [|reflexivity].
    destruct Hx' as [-> | (str & -> & <-)]; reflexivity.
Qed.

Lemma Get_then_Get_hits_witness :
  let cm := NewCacheManager memStore in
  let r1 := CacheManager_Get cm Leader "users" "42"
              (loaderReturning (bytes_of_string "Alice")) [] (start []) in
  result_of (CacheManager_Get cm Leader "users" "42"
               (loaderReturning (bytes_of_string "Bob")) [] (state_of r1))
  = (bytes_of_string "Alice", None, true).
Proof.
  intros cm r1.
  apply (Get_then_Get_hits MemEnv cm Leader Leader "users" "42"
           (loaderReturning (bytes_of_string "Alice"))
           (loaderReturning (bytes_of_string "Bob")) [] [] (start [])
           (bytes_of_string "Alice") memStore_reads_back eq_refl).
Defined.

(** A deleted entry is not served again: over a store that no longer finds
    a key it has deleted, after a [Delete] that returned no error the
    [CacheManager.Get] for the same namespace and key reports wasCached
    false and goes through the coalescer: it runs its loader, once, when it
    leads the flight, and not at all when it is handed the result of a call
    in flight. *)
Theorem Delete_then_Get_reloads (E : Type) (i : CacheManager E) (g : flight E)
    (namespace key : string) (fn : loader E) (opts : list (Option E)) (s : State E) :
  forgets (cache i) ->
  result_of (Delete i namespace key s) = None ->
  snd (result_of (CacheManager_Get i g namespace key fn opts
                    (state_of (Delete i namespace key s)))) = false /\
  count_events is_EvLoader
    (trace_of (CacheManager_Get i g namespace key fn opts
                 (state_of (Delete i namespace key s))))
  = match g with Leader => 1 | Follower _ _ => 0 end.
Proof.
  intros Hstore. rewrite Delete_run. unfold result_of at 1, state_of. cbn [fst snd].
  destruct (store_Delete (cache i) (composed namespace key s) (env s))
    as [err e'] eqn:Hdel.
  cbn [fst snd]. intros ->.
  destruct (Hstore _ _ _ Hdel) as (x & err & e'' & Hget' & Hnf').
  set (s' := {| proc := proc s; env := e' |}).
  assert (Hget2 : store_Get (cache i) (composed namespace key s') (env s')
                  = ((x, Some err), e'')) by exact Hget'.
  get_cases E i g namespace key fn opts s'; rewrite Hrun;
    unfold trace_of, result_of; cbn [fst snd].
  - rewrite Hget2 in Hget. discriminate.
  - rewrite Hget2 in Hget. injection Hget as _ <- _. rewrite Hnf in Hnf'. discriminate.
  - pose proof (Do_trace E g (composed namespace key s') fn
                  (looked namespace s' ce1)) as Ht.
    rewrite HDo in Ht. unfold trace_of in Ht. cbn in Ht. subst ct2.
    split; [reflexivity|]. destruct g; reflexivity.
  - pose proof (Do_trace E g (composed namespace key s') fn
                  (looked namespace s' ce1)) as Ht.
    rewrite HDo in Ht. unfold trace_of in Ht. cbn in Ht. subst ct2.
    split; [destruct cerr; reflexivity|].
    change (EvStoreGet (composed namespace key s') :: ?l)
      with ([EvStoreGet (composed namespace key s')] ++ l)%list.
    rewrite !count_events_app, count_events_dynamic by reflexivity.
    destruct g; reflexivity.
Qed.

Lemma Delete_then_Get_reloads_witness :
  let cm := NewCacheManager memStore in
  let s := start [("cacheable:users:42", ABytes (bytes_of_string "Alice"))] in
  let r := CacheManager_Get cm Leader "users" "42"
             (loaderReturning (bytes_of_string "Bob")) []
             (state_of (Delete cm "users" "42" s)) in
  snd (result_of r) = false /\
  count_events is_EvLoader (trace_of r) = 1.
Proof.
  intros cm s r.
  exact (Delete_then_Get_reloads MemEnv cm Leader "users" "42"
           (loaderReturning (bytes_of_string "Bob")) [] s
           memStore_forgets eq_refl).
Defined.

(** ** The typed facade, continued *)

(** The generic [Get] does nothing of its own to the world: its final
    state, its log and its wasCached are those of the [CacheManager.Get] it
    wraps, run with the marshalling loader. *)
Theorem typed_Get_adds_no_effects (E T : Type) (c : Codec T) (i : CacheManager E)
    (g : flight E) (namespace key : string) (fn : typedLoader E T)
    (opts : list (Option E)) (s : State E) :
  state_of (Get c i g namespace key fn opts s)
  = state_of (CacheManager_Get i g namespace key (marshalLoader c fn) opts s) /\
  trace_of (Get c i g namespace key fn opts s)
  = trace_of (CacheManager_Get i g namespace key (marshalLoader c fn) opts s) /\
  snd (result_of (Get c i g namespace key fn opts s))
  = snd (result_of (CacheManager_Get i g namespace key (marshalLoader c fn) opts s)).
Proof.
  apply Get_typed_state.
Qed.

Lemma typed_miss_failure (E T : Type) (c : Codec T) (i : CacheManager E)
    (namespace key : string) (fn : typedLoader E T) (opts : list (Option E))
    (s : State E) (x : any) (e0 : error) (e1 e2 : E) (b : list byte) (e : error) :
  store_Get (cache i) (composed namespace key s) (env s) = ((x, Some e0), e1) ->
  errors_Is_NotFound e0 = true ->
  marshalLoader c fn e1 = ((b, Some e), e2) ->
  Get c i Leader namespace key fn opts s
  = (((zero c, Some e, false),
      {| proc := inc_CacheRequestTotal namespace (proc s); env := e2 |}),
     [EvStoreGet (composed namespace key s); EvLoader]).
Proof.
  intros Hget Hnf Hfn.
  assert (HDo : Do Leader (composed namespace key s) (loaderThunk (marshalLoader c fn))
                  (looked namespace s e1)
                = (((ANil, Some e),
                    {| proc := inc_CacheRequestTotal namespace (proc s); env := e2 |}),
                   [EvLoader])).
  { cbn [Do]. unfold loaderThunk, bind, call, ret, looked. cbn [env proc].
    rewrite Hfn. reflexivity. }
  apply (Get_typed_run E T c i Leader namespace key fn opts s _ [] (Some e) false).
  rewrite (Get_on_miss E i Leader namespace key (marshalLoader c fn) opts s x e0 e1
             Hget Hnf).
  rewrite (Get_miss_on_failure E i Leader _ (marshalLoader c fn) opts _ _ ANil e
             [EvLoader] HDo).
  reflexivity.
Qed.

(** A failing typed loader: on a miss, when the typed loader returns an
    error, the generic [Get] answers the zero value of [T], that error and
    wasCached false; the log is the lookup and the loader, so nothing was
    written, and the world is as the loader left it. *)
Theorem typed_Get_loader_error (E T : Type) (c : Codec T) (i : CacheManager E)
    (namespace key : string) (fn : typedLoader E T) (opts : list (Option E))
    (s : State E) (x : any) (e0 : error) (e1 e2 : E) (v : T) (e : error) :
  store_Get (cache i) (composed namespace key s) (env s) = ((x, Some e0), e1) ->
  errors_Is_NotFound e0 = true ->
  fn e1 = ((v, Some e), e2) ->
  result_of (Get c i Leader namespace key fn opts s) = (zero c, Some e, false) /\
  trace_of (Get c i Leader namespace key fn opts s)
  = [EvStoreGet (composed namespace key s); EvLoader] /\
  env (state_of (Get c i Leader namespace key fn opts s)) = e2.
Proof.
  intros Hget Hnf Hfn.
  rewrite (typed_miss_failure E T c i namespace key fn opts s x e0 e1 e2 [] e Hget Hnf).
  - repeat split.
  - unfold marshalLoader. now rewrite Hfn.
Qed.

Lemma typed_Get_loader_error_witness :
  result_of (Get unexportedCodec (NewCacheManager memStore) Leader "users" "42"
               (fun e => (({| field_n := 0 |}, Some (errors_New "fn error")), e))
               [] (start []))
  = ({| field_n := 0 |}, Some (errors_New "fn error"), false).
Proof.
  apply (typed_Get_loader_error MemEnv unexported unexportedCodec
           (NewCacheManager memStore) "users" "42"
           (fun e => (({| field_n := 0 |}, Some (errors_New "fn error")), e))
           [] (start []) ANil (store_NotFound "value not found in store") [] []
           {| field_n := 0 |} (errors_New "fn error")); reflexivity.
Defined.

(** A value that cannot be serialized is not cached: on a miss, when the
    typed loader succeeds and [json.Marshal] of its value fails, the generic
    [Get] answers the zero value of [T], the marshalling error and wasCached
    false; the log holds no [Set], and what the loader did to the world
    stays. *)
Theorem typed_Get_marshal_error (E T : Type) (c : Codec T) (i : CacheManager E)
    (namespace key : string) (fn : typedLoader E T) (opts : list (Option E))
    (s : State E) (x : any) (e0 : error) (e1 e2 : E) (v : T) (b : list byte)
    (e : error) :
  store_Get (cache i) (composed namespace key s) (env s) = ((x, Some e0), e1) ->
  errors_Is_NotFound e0 = true ->
  fn e1 = ((v, None), e2) ->
  json_Marshal c v = (b, Some e) ->
  result_of (Get c i Leader namespace key fn opts s) = (zero c, Some e, false) /\
  trace_of (Get c i Leader namespace key fn opts s)
  = [EvStoreGet (composed namespace key s); EvLoader] /\
  env (state_of (Get c i Leader namespace key fn opts s)) = e2.
Proof.
  intros Hget Hnf Hfn Hmar.
  rewrite (typed_miss_failure E T c i namespace key fn opts s x e0 e1 e2 b e Hget Hnf).
  - repeat split.
  - unfold marshalLoader. rewrite Hfn. now rewrite Hmar.
Qed.

Lemma typed_Get_marshal_error_witness :
  result_of
    (Get (stubCodec 0%Z ([], Some (errors_New "json: unsupported value: NaN"))
            (0%Z, None))
       (NewCacheManager memStore) Leader "users" "42"
       (typedLoaderReturning 1%Z) [] (start []))
  = (0%Z, Some (errors_New "json: unsupported value: NaN"), false).
Proof.
  apply (typed_Get_marshal_error MemEnv Z
           (stubCodec 0%Z ([], Some (errors_New "json: unsupported value: NaN"))
              (0%Z, None))
           (NewCacheManager memStore) "users" "42"
           (typedLoaderReturning 1%Z) [] (start [])
           ANil (store_NotFound "value not found in store") [] []
           1%Z [] (errors_New "json: unsupported value: NaN")); reflexivity.
Defined.

(** An entry that does not deserialize is an error with wasCached true: on
    a hit whose payload [json.Unmarshal] rejects, the generic [Get] answers
    the deserialization error together with wasCached true and whatever
    [json.Unmarshal] left in the value; the log is the lookup alone, so the
    loader is not run and the entry stays in the store. *)
Theorem typed_Get_unmarshal_error_on_hit (E T : Type) (c : Codec T)
    (i : CacheManager E) (g : flight E) (namespace key : string)
    (fn : typedLoader E T) (opts : list (Option E)) (s : State E)
    (x : any) (e1 : E) (data : list byte) (v' : T) (e : error) :
  store_Get (cache i) (composed namespace key s) (env s) = ((x, None), e1) ->
  x = ABytes data \/ (exists str, x = AString str /\ bytes_of_string str = data) ->
  json_Unmarshal c data (zero c) = (v', Some e) ->
  result_of (Get c i g namespace key fn opts s) = (v', Some e, true) /\
  trace_of (Get c i g namespace key fn opts s)
  = [EvStoreGet (composed namespace key s)] /\
  env (state_of (Get c i g namespace key fn opts s)) = e1.
Proof.
  intros Hget Hx Hunm.
  assert (Hhit : Get_hit x = (data, None, true)).
  { destruct Hx as [-> | (str & -> & <-)]; reflexivity. }
  pose proof (Get_on_hit E i g namespace key (marshalLoader c fn) opts s x e1 Hget)
    as Hrun.
  rewrite Hhit in Hrun.
  rewrite (Get_typed_run E T c i g namespace key fn opts s _ _ _ _ _ Hrun).
  rewrite Hunm. repeat split.
Qed.

Lemma typed_Get_unmarshal_error_on_hit_witness :
  result_of
    (Get unexportedCodec (NewCacheManager memStore) Leader "users" "42"
       (typedLoaderReturning {| field_n := 1 |}) []
       (start [("cacheable:users:42", AString "Alice")]))
  = ({| field_n := 0 |}, Some (errors_New "json: cannot unmarshal into Go value"), true).
Proof.
  apply (typed_Get_unmarshal_error_on_hit MemEnv unexported unexportedCodec
           (NewCacheManager memStore) Leader "users" "42"
           (typedLoaderReturning {| field_n := 1 |}) []
           (start [("cacheable:users:42", AString "Alice")])
           (AString "Alice") [("cacheable:users:42", AString "Alice")]
           (bytes_of_string "Alice") {| field_n := 0 |}
           (errors_New "json: cannot unmarshal into Go value")).
  - reflexivity.
  - right. exists "Alice". split; reflexivity.
  - reflexivity.
Defined.

(** ** A call that joins a call in flight *)

(** A call that is handed the result of a call in flight still writes: on a
    miss, when the loader in flight gave [d], the joining call does not run
    its own loader, yet it resolves its own options, running every
    dynamic-tag closure, and makes its own [Set] of [d]. *)
Theorem follower_writes_without_loading (E : Type) (i : CacheManager E)
    (fn' : loader E) (e' : E) (namespace key : string) (fn : loader E)
    (opts : list (Option E)) (s : State E)
    (x : any) (e0 : error) (e1 : E) (d : list byte) (e2' : E) :
  store_Get (cache i) (composed namespace key s) (env s) = ((x, Some e0), e1) ->
  errors_Is_NotFound e0 = true ->
  fn' e' = ((d, None), e2') ->
  existsb is_EvLoader
    (trace_of (CacheManager_Get i (Follower fn' e') namespace key fn opts s)) = false /\
  exists so,
    trace_of (CacheManager_Get i (Follower fn' e') namespace key fn opts s)
    = (EvStoreGet (composed namespace key s)
       :: map EvDynamicTags (dynamic_indices opts)
          ++ [EvStoreSet (composed namespace key s) (ABytes d) so])%list.
Proof.
  intros Hget0 Hnf0 Hfn'.
  assert (HDo0 : Do (Follower fn' e') (composed namespace key s) (loaderThunk fn)
                   (looked namespace s e1)
                 = (((ABytes d, None), looked namespace s e1), [])).
  { cbn [Do]. unfold loaderThunk, bind, call, ret. cbn [env proc].
    rewrite Hfn'. reflexivity. }
  get_cases E i (Follower fn' e') namespace key fn opts s; rewrite Hrun;
    unfold trace_of; cbn [snd].
  - rewrite Hget0 in Hget. discriminate.
  - rewrite Hget0 in Hget. injection Hget as _ <- _. rewrite Hnf0 in Hnf. discriminate.
  - rewrite Hget0 in Hget. injection Hget as _ _ <-.
    rewrite HDo0 in HDo. discriminate.
  - rewrite Hget0 in Hget. injection Hget as _ _ <-.
    rewrite HDo0 in HDo. injection HDo as <- <- <-.
    split.
    + cbn [existsb is_EvLoader orb app].
      rewrite existsb_app, existsb_dynamic by reflexivity. reflexivity.
    + eexists. reflexivity.
Qed.

Lemma follower_writes_without_loading_witness :
  existsb is_EvLoader
    (trace_of (CacheManager_Get (NewCacheManager memStore)
                 (Follower (loaderReturning [x61]) []) "users" "42"
                 (loaderReturning [x62])
                 [WithDynamicTags (fun e => (["org:7"], e))] (start []))) = false.
Proof.
  apply (follower_writes_without_loading MemEnv (NewCacheManager memStore)
           (loaderReturning [x61]) [] "users" "42" (loaderReturning [x62])
           [WithDynamicTags (fun e => (["org:7"], e))] (start [])
           ANil (store_NotFound "value not found in store") [] [x61] []);
    reflexivity.
Defined.
